(** * Cross-cluster history resender (common/xdc/nDCHistoryResender.go)

    A shallow embedding of [NDCHistoryResenderImpl] and of the paging
    iterator it drives.  The collaborators of the resender (domain cache,
    admin client, replication function, invariant checker, logger) are
    external and stateful: they are modelled as transition functions over an
    abstract world [W], and every call made to one of them is recorded, with
    its arguments and its answer, in the trace of the run. *)

From Stdlib Require Import List String ZArith Bool Arith Lia.
Import ListNotations.
Local Open Scope string_scope.
Local Open Scope list_scope.
Local Open Scope nat_scope.

(** ** Go values *)

(** A Go [error] value, by dynamic type.  [nil] is [None] in [option error].
    The type switch of [SendSingleWorkflowHistory] separates
    [*shared.EntityNotExistsError] from every other dynamic type; the
    package-level sentinel built by [errors.New] is a value of its own. *)
Inductive error : Type :=
  | EntityNotExistsError (Message : string)
  | SkipTaskSentinel
  | OtherError (Message : string).

(** [ErrSkipTask = errors.New("the source workflow does not exist")] *)
Definition ErrSkipTask : error := SkipTaskSentinel.

(** [context.Context]: only the deadlines layered on it matter here.
    Durations are [time.Duration] values, in nanoseconds. *)
Inductive Context : Type :=
  | Background
  | WithTimeout (parent : Context) (timeout : Z).

Definition Second : Z := 1000000000.

(** [resendContextTimeout = 30 * time.Second] *)
Definition resendContextTimeout : Z := 30 * Second.

(** [[]byte]; the nil slice and the empty slice are both [[]]. *)
Definition bytes : Type := list Byte.byte.

(** [common.StringPtr], [common.Int32Ptr]: a pointer to a copy of the
    argument. *)
Definition StringPtr (s : string) : option string := Some s.
Definition Int32Ptr (i : Z) : option Z := Some i.

(** ** Structures declared outside the resender

    The generated Thrift structures (.gen/go), the reconciliation types and
    the log tags are declared in packages that are not part of the sources at
    hand.  They are modelled with the fields the resender reads or writes.
    A pointer to a structure is an [option], a slice is a list. *)

Module shared.

(** Modelled from the spec: the raw event batch, an opaque serialized blob
    that the resender never decodes. *)
Record DataBlob : Type := {
  Data : bytes
}.

(** Modelled from the spec: an opaque ordered entry (event ID, version)
    supplied by the remote cluster and passed through. *)
Record VersionHistoryItem : Type := {
  EventID : option Z;
  Version : option Z
}.

(** Modelled from the spec: the version history of a page, an ordered
    sequence of items. *)
Record VersionHistory : Type := {
  Items : list VersionHistoryItem
}.

(** Modelled from the spec: the getter of the items of a version history,
    which the resender calls on a pointer that may be nil; the generated
    getters are nil-safe. *)
Definition GetItems (v : option VersionHistory) : list VersionHistoryItem :=
  match v with
  | Some h => Items h
  | None => []
  end.

(** Modelled from the spec: the workflow ID and run ID of an execution. *)
Record WorkflowExecution : Type := {
  WorkflowId : option string;
  RunId : option string
}.

End shared.

Module history.

(** Modelled from the spec: the replication request, with the four fields
    [createReplicationRawRequest] sets. *)
Record ReplicateEventsV2Request : Type := {
  DomainUUID : option string;
  WorkflowExecution : option shared.WorkflowExecution;
  VersionHistoryItems : list shared.VersionHistoryItem;
  Events : option shared.DataBlob
}.

End history.

Module admin.

(** Modelled from the spec: the request of one round trip to the remote
    cluster, with the fields [getHistory] sets. *)
Record GetWorkflowExecutionRawHistoryV2Request : Type := {
  Domain : option string;
  Execution : option shared.WorkflowExecution;
  StartEventId : option Z;
  StartEventVersion : option Z;
  EndEventId : option Z;
  EndEventVersion : option Z;
  MaximumPageSize : option Z;
  NextPageToken : bytes
}.

(** Modelled from the spec: the answer of the remote cluster: raw batches
    in order, one version history for the page, and the next page token
    (the field [NextPageToken] of the response). *)
Record GetWorkflowExecutionRawHistoryV2Response : Type := {
  RespNextPageToken : bytes;
  HistoryBatches : list (option shared.DataBlob);
  VersionHistory : option shared.VersionHistory
}.

End admin.

Module persistence.

(** Modelled from the spec: the state of a workflow record, of which the
    resender only ever uses the running state. *)
Inductive WorkflowState : Type :=
  | WorkflowStateRunning
  | WorkflowStateOther (code : Z).

End persistence.

Module checks.

(** Modelled from the spec: the execution record the invariant checker
    looks at, with the three fields the resender sets; the others keep their
    zero value. *)
Record Execution : Type := {
  DomainID : string;
  WorkflowID : string;
  State : persistence.WorkflowState
}.

(** Modelled from the spec: the current-execution record, which embeds an
    [Execution]. *)
Record CurrentExecution : Type := {
  Exec : Execution
}.

(** Modelled from the spec: the outcome of a check: one of the three named
    outcomes, or any other tag, which the resender treats as healthy. *)
Inductive CheckResultType : Type :=
  | CheckResultTypeFailed
  | CheckResultTypeCorrupted
  | CheckResultTypeHealthy
  | CheckResultTypeOther (name : string).

(** Modelled from the spec: the result of Check; [resultType] is its
    field [CheckResultType]. *)
Record CheckResult : Type := {
  resultType : CheckResultType
}.

(** Modelled from the spec: the result of Fix, which the resender
    ignores. *)
Record FixResult : Type := {
  applied : bool
}.

End checks.

Module tag.

(** Modelled from the spec: the tags of common/log/tag that the resender
    puts on its log entries: the identity of the execution and the error. *)
Inductive Tag : Type :=
  | WorkflowDomainID (domainID : string)
  | WorkflowID (workflowID : string)
  | WorkflowRunID (runID : string)
  | Error (err : error).

End tag.

(** [historyBatch]: one raw event batch with the version history of the page
    it came from. *)
Record historyBatch : Type := {
  versionHistory : option shared.VersionHistory;
  rawEventBatch : option shared.DataBlob
}.

(** ** Observable events: one per call to a collaborator *)

Inductive Event : Type :=
  | EvGetDomainByID (domainID : string) (res : error + string)
  | EvGetRawHistory (ctx : Context)
      (request : admin.GetWorkflowExecutionRawHistoryV2Request)
      (res : error + admin.GetWorkflowExecutionRawHistoryV2Response)
  | EvReplicate (ctx : Context) (request : history.ReplicateEventsV2Request)
      (res : option error)
  | EvCheck (execution : checks.CurrentExecution) (res : checks.CheckResult)
  | EvFix (execution : checks.CurrentExecution) (res : checks.FixResult)
  | EvLogError (msg : string) (tags : list tag.Tag).

(** ** The monad of the embedding: world passing, a trace of events, and
    three ways to stop: a value, a Go panic, or the fuel of a loop used up. *)

Inductive Outcome (A : Type) : Type :=
  | Ret (a : A)
  | Panic (msg : string)
  | NoFuel.
Arguments Ret {A} a.
Arguments Panic {A} msg.
Arguments NoFuel {A}.

Record Result (W A : Type) : Type := mkResult {
  outcome : Outcome A;
  final : W;
  trace : list Event
}.
Arguments mkResult {W A} _ _ _.
Arguments outcome {W A} _.
Arguments final {W A} _.
Arguments trace {W A} _.

Definition M (W A : Type) : Type := W -> Result W A.

Definition ret {W A} (a : A) : M W A := fun w => mkResult (Ret a) w [].

Definition bind {W A B} (m : M W A) (k : A -> M W B) : M W B := fun w =>
  let r := m w in
  match outcome r with
  | Ret a =>
      let r' := k a (final r) in
      mkResult (outcome r') (final r') (trace r ++ trace r')
  | Panic msg => mkResult (Panic msg) (final r) (trace r)
  | NoFuel => mkResult NoFuel (final r) (trace r)
  end.

Definition panic {W A} (msg : string) : M W A := fun w => mkResult (Panic msg) w [].

Definition noFuel {W A} : M W A := fun w => mkResult NoFuel w [].

(** A call to a collaborator: the world moves and the call is recorded. *)
Definition call {W A} (f : W -> A * W) (ev : A -> Event) : M W A := fun w =>
  let '(a, w') := f w in mkResult (Ret a) w' [ev a].

(** [logger.Error(msg, tags...)] *)
Definition logError {W} (msg : string) (tags : list tag.Tag) : M W unit :=
  fun w => mkResult (Ret tt) w [EvLogError msg tags].

Declare Scope resend_scope.
Delimit Scope resend_scope with resend.
Notation "x <- m ;; k" := (bind m (fun x => k))
  (at level 61, m at next level, right associativity) : resend_scope.
Notation "' pat <- m ;; k" := (bind m (fun x => match x with pat => k end))
  (at level 61, pat pattern, m at next level, right associativity) : resend_scope.
Notation "m ;;; k" := (bind m (fun _ => k))
  (at level 61, right associativity) : resend_scope.
Local Open Scope resend_scope.

(** ** The paging iterator (common/collection) *)

Module collection.

(** Modelled from the spec: the state of the Pagination Driver,
    common/collection's paging iterator, which is not part of the sources at
    hand: the token of the page to ask for next, the error of the last
    fetch if it has not been handed out yet, the items of the current page
    and the index of the next one to hand out.  The items are [*historyBatch]
    values, the only ones the resender's pagination function produces. *)
Record PagingIteratorImpl : Type := {
  pageToken : bytes;
  pageErr : option error;
  pageItems : list historyBatch;
  nextPageItemIndex : nat
}.

(** Modelled from the spec: a pagination function takes a token and
    answers with the items of a page, the next page token and an error. *)
Definition PaginationFn (W : Type) : Type :=
  bytes -> M W (list historyBatch * bytes * option error).

Section Iterator.
Context {W : Type} (paginationFn : PaginationFn W).

(** Modelled from the spec: one fetch of the Pagination Driver: the
    pagination function is asked with the current token, unmodified; its
    page and token replace the current ones, or its error is kept and the
    sequence ends. *)
Definition getNextPage (iter : PagingIteratorImpl) : M W PagingIteratorImpl :=
  '(items, token, err) <- paginationFn (pageToken iter) ;;
  match err with
  | None =>
      ret {| pageToken := token; pageErr := None;
             pageItems := items; nextPageItemIndex := 0 |}
  | Some e =>
      ret {| pageToken := []; pageErr := Some e;
             pageItems := []; nextPageItemIndex := 0 |}
  end.

(** Modelled from the spec: the Pagination Driver starts with the nil
    token, which denotes the start of the sequence, and fetches the first
    page. *)
Definition NewPagingIterator : M W PagingIteratorImpl :=
  getNextPage {| pageToken := []; pageErr := None;
                 pageItems := []; nextPageItemIndex := 0 |}.

(** Modelled from the spec: whether the sequence has another item or an
    error to hand out.  As long as the items of the current page are used up
    and its next-page-token is not empty, the driver asks again with that
    token; an empty token ends the sequence.  The fuel bounds the number of
    pages fetched in a row and is only looked at when a page is about to be
    fetched. *)
Fixpoint HasNext (fuel : nat) (iter : PagingIteratorImpl)
  : M W (bool * PagingIteratorImpl) :=
  match pageErr iter with
  | Some _ => ret (true, iter)
  | None =>
      if nextPageItemIndex iter <? List.length (pageItems iter) then ret (true, iter)
      else if negb (List.length (pageToken iter) =? 0) then
        match fuel with
        | O => noFuel
        | S fuel' =>
            iter' <- getNextPage iter ;;
            HasNext fuel' iter'
        end
      else ret (false, iter)
  end.

(** Modelled from the spec: the next batch of the sequence, in the order
    of the remote cluster, or the error of the fetch, handed out once.  It
    panics when called on a sequence that has no next item. *)
Definition Next (fuel : nat) (iter : PagingIteratorImpl)
  : M W ((error + historyBatch) * PagingIteratorImpl) :=
  '(more, iter) <- HasNext fuel iter ;;
  if negb more then
    panic "HistoryEventIterator Next() called without checking HasNext()"
  else
    match pageErr iter with
    | Some err =>
        ret (inl err,
             {| pageToken := pageToken iter; pageErr := None;
                pageItems := pageItems iter;
                nextPageItemIndex := nextPageItemIndex iter |})
    | None =>
        if nextPageItemIndex iter <? List.length (pageItems iter) then
          match nth_error (pageItems iter) (nextPageItemIndex iter) with
          | Some item =>
              ret (inr item,
                   {| pageToken := pageToken iter; pageErr := None;
                      pageItems := pageItems iter;
                      nextPageItemIndex := S (nextPageItemIndex iter) |})
          | None => panic "index out of range"
          end
        else
          panic "HistoryEventIterator Next() return neither a history event nor a err"
    end.

End Iterator.

End collection.
Import collection.

(** ** The resender and its collaborators *)

(** Modelled from the spec: the invariant checker, [checks.Invariant], an
    interface declared in common/reconciliation/common: Check evaluates a
    probe, Fix repairs it.  Both methods receive the pointer to the probe, so
    the object Fix is given is the one Check leaves behind: Check answers
    with its result and with the content of the probe after the call. *)
Record Invariant (W : Type) : Type := {
  Check : checks.CurrentExecution -> W ->
          (checks.CheckResult * checks.CurrentExecution) * W;
  Fix : checks.CurrentExecution -> W -> checks.FixResult * W
}.
Arguments Check {W} _ _ _.
Arguments Fix {W} _ _ _.

(** [NDCHistoryResenderImpl].  [domainCache] stands for
    [GetDomainByID(id)] followed by [GetInfo().Name]; [adminClient] for
    [GetWorkflowExecutionRawHistoryV2]; both follow Go's convention that
    exactly one of the answer and the error is non-nil.  The serializer is
    never used and the logger only writes to the trace. *)
Record NDCHistoryResenderImpl (W : Type) : Type := {
  domainCache : string -> W -> (error + string) * W;
  adminClient : Context -> admin.GetWorkflowExecutionRawHistoryV2Request -> W ->
                (error + admin.GetWorkflowExecutionRawHistoryV2Response) * W;
  historyReplicationFn : Context -> history.ReplicateEventsV2Request -> W ->
                         option error * W;
  rereplicationTimeout : option (string -> Z);
  currentExecutionCheck : option (Invariant W)
}.
Arguments domainCache {W} _ _ _.
Arguments adminClient {W} _ _ _ _.
Arguments historyReplicationFn {W} _ _ _ _.
Arguments rereplicationTimeout {W} _.
Arguments currentExecutionCheck {W} _.

(** [NewNDCHistoryResender]: the constructor stores its arguments. *)
Definition NewNDCHistoryResender {W : Type}
    (domainCache : string -> W -> (error + string) * W)
    (adminClient : Context -> admin.GetWorkflowExecutionRawHistoryV2Request -> W ->
                   (error + admin.GetWorkflowExecutionRawHistoryV2Response) * W)
    (historyReplicationFn : Context -> history.ReplicateEventsV2Request -> W ->
                            option error * W)
    (rereplicationTimeout : option (string -> Z))
    (currentExecutionCheck : option (Invariant W))
  : NDCHistoryResenderImpl W :=
  {| domainCache := domainCache;
     adminClient := adminClient;
     historyReplicationFn := historyReplicationFn;
     rereplicationTimeout := rereplicationTimeout;
     currentExecutionCheck := currentExecutionCheck |}.

Section Resender.
Context {W : Type}.
(** [defaultPageSize] is declared in another file of the package. *)
Context (defaultPageSize : Z).
Context (n : NDCHistoryResenderImpl W).

Definition getHistory (ctx : Context) (domainID workflowID runID : string)
    (startEventID startEventVersion endEventID endEventVersion : option Z)
    (token : bytes) (pageSize : Z)
  : M W (error + admin.GetWorkflowExecutionRawHistoryV2Response) :=
  let loggerTags := [tag.WorkflowRunID runID] in
  domainEntry <- call (domainCache n domainID) (EvGetDomainByID domainID) ;;
  match domainEntry with
  | inl err =>
      logError "error getting domain" (loggerTags ++ [tag.Error err]) ;;;
      ret (inl err)
  | inr domainName =>
      let ctx := WithTimeout ctx resendContextTimeout in
      let request :=
        {| admin.Domain := StringPtr domainName;
           admin.Execution :=
             Some {| shared.WorkflowId := StringPtr workflowID;
                     shared.RunId := StringPtr runID |};
           admin.StartEventId := startEventID;
           admin.StartEventVersion := startEventVersion;
           admin.EndEventId := endEventID;
           admin.EndEventVersion := endEventVersion;
           admin.MaximumPageSize := Int32Ptr pageSize;
           admin.NextPageToken := token |} in
      response <- call (adminClient n ctx request) (EvGetRawHistory ctx request) ;;
      match response with
      | inl err =>
          logError "error getting history" (loggerTags ++ [tag.Error err]) ;;;
          ret (inl err)
      | inr response => ret (inr response)
      end
  end.

Definition getPaginationFn (ctx : Context) (domainID workflowID runID : string)
    (startEventID startEventVersion endEventID endEventVersion : option Z)
  : PaginationFn W :=
  fun paginationToken =>
    response <- getHistory ctx domainID workflowID runID
                  startEventID startEventVersion endEventID endEventVersion
                  paginationToken defaultPageSize ;;
    match response with
    | inl err => ret ([], [], Some err)
    | inr response =>
        let versionHistory := admin.VersionHistory response in
        let paginateItems :=
          map (fun history => {| versionHistory := versionHistory;
                                 rawEventBatch := history |})
              (admin.HistoryBatches response) in
        ret (paginateItems, admin.RespNextPageToken response, None)
    end.

Definition createReplicationRawRequest (domainID workflowID runID : string)
    (historyBlob : option shared.DataBlob)
    (versionHistoryItems : list shared.VersionHistoryItem)
  : history.ReplicateEventsV2Request :=
  {| history.DomainUUID := StringPtr domainID;
     history.WorkflowExecution :=
       Some {| shared.WorkflowId := StringPtr workflowID;
               shared.RunId := StringPtr runID |};
     history.VersionHistoryItems := versionHistoryItems;
     history.Events := historyBlob |}.

Definition sendReplicationRawRequest (ctx : Context)
    (request : history.ReplicateEventsV2Request) : M W (option error) :=
  let ctx := WithTimeout ctx resendContextTimeout in
  call (historyReplicationFn n ctx request) (EvReplicate ctx request).

Definition fixCurrentExecution (domainID workflowID runID : string) : M W bool :=
  match currentExecutionCheck n with
  | None => ret false
  | Some currentExecutionCheck =>
      let execution :=
        {| checks.Exec := {| checks.DomainID := domainID;
                             checks.WorkflowID := workflowID;
                             checks.State := persistence.WorkflowStateRunning |} |} in
      '(res, execution) <- call (Check currentExecutionCheck execution)
                                (fun a => EvCheck execution (fst a)) ;;
      match checks.resultType res with
      | checks.CheckResultTypeCorrupted =>
          logError "Encounter corrupted workflow"
            [tag.WorkflowDomainID domainID; tag.WorkflowID workflowID;
             tag.WorkflowRunID runID] ;;;
          call (Fix currentExecutionCheck execution) (EvFix execution) ;;;
          ret false
      | checks.CheckResultTypeFailed => ret false
      | _ => ret true
      end
  end.

Section Send.
Context (domainID workflowID runID : string).
Context (ctx : Context) (paginationFn : PaginationFn W).

(** The [for historyIterator.HasNext()] loop of
    [SendSingleWorkflowHistory]; a unit of fuel is spent each time the
    loop goes round after a batch has been replicated. *)
Fixpoint resendLoop (fuel : nat) (historyIterator : PagingIteratorImpl)
  : M W (option error) :=
  '(more, historyIterator) <- HasNext paginationFn fuel historyIterator ;;
  if negb more then ret None
  else
    '(result, historyIterator) <- Next paginationFn fuel historyIterator ;;
    match result with
    | inl err =>
        logError "failed to get history events"
          [tag.WorkflowDomainID domainID; tag.WorkflowID workflowID;
           tag.WorkflowRunID runID; tag.Error err] ;;;
        ret (Some err)
    | inr historyBatch =>
        let replicationRequest :=
          createReplicationRawRequest domainID workflowID runID
            (rawEventBatch historyBatch)
            (shared.GetItems (versionHistory historyBatch)) in
        err <- sendReplicationRawRequest ctx replicationRequest ;;
        match err with
        | None =>
            match fuel with
            | O => noFuel
            | S fuel' => resendLoop fuel' historyIterator
            end
        | Some (EntityNotExistsError _) =>
            skipTask <- fixCurrentExecution domainID workflowID runID ;;
            if skipTask then ret (Some ErrSkipTask) else ret err
        | Some err' =>
            logError "failed to replicate events"
              [tag.WorkflowDomainID domainID; tag.WorkflowID workflowID;
               tag.WorkflowRunID runID; tag.Error err'] ;;;
            ret err
        end
    end.

End Send.

Definition SendSingleWorkflowHistory (fuel : nat)
    (domainID workflowID runID : string)
    (startEventID startEventVersion endEventID endEventVersion : option Z)
  : M W (option error) :=
  let ctx :=
    match rereplicationTimeout n with
    | Some rereplicationTimeout =>
        let resendContextTimeout := rereplicationTimeout domainID in
        if (0 <? resendContextTimeout)%Z
        then WithTimeout Background resendContextTimeout
        else Background
    | None => Background
    end in
  let paginationFn :=
    getPaginationFn ctx domainID workflowID runID
      startEventID startEventVersion endEventID endEventVersion in
  historyIterator <- NewPagingIterator paginationFn ;;
  resendLoop domainID workflowID runID ctx paginationFn fuel historyIterator.

End Resender.

(** ** Concrete collaborators, used to run the embedding

    The world counts the repairs applied by the invariant checker.  The
    remote cluster answers by page token, the local replication function by
    request. *)

Module Scenario.

Definition blob (s : string) : option shared.DataBlob :=
  Some {| shared.Data := list_byte_of_string s |}.

Definition lineage (v : Z) : option shared.VersionHistory :=
  Some {| shared.Items := [ {| shared.EventID := Some 10%Z;
                               shared.Version := Some v |} ] |}.

Definition tokenT : bytes := list_byte_of_string "T".

Definition page1 : admin.GetWorkflowExecutionRawHistoryV2Response :=
  {| admin.RespNextPageToken := tokenT;
     admin.HistoryBatches := [blob "b1"; blob "b2"; blob "b3"];
     admin.VersionHistory := lineage 1 |}.

Definition page2 : admin.GetWorkflowExecutionRawHistoryV2Response :=
  {| admin.RespNextPageToken := [];
     admin.HistoryBatches := [blob "b4"];
     admin.VersionHistory := lineage 2 |}.

Definition emptyPage (next : bytes) : admin.GetWorkflowExecutionRawHistoryV2Response :=
  {| admin.RespNextPageToken := next;
     admin.HistoryBatches := [];
     admin.VersionHistory := lineage 1 |}.

Definition Remote : Type :=
  bytes -> error + admin.GetWorkflowExecutionRawHistoryV2Response.

(** Two pages: three batches and token T, then one batch and no token. *)
Definition twoPages : Remote :=
  fun token => match token with [] => inr page1 | _ => inr page2 end.

(** An empty page with token T, then [page2]. *)
Definition emptyThenPage2 : Remote :=
  fun token => match token with [] => inr (emptyPage tokenT) | _ => inr page2 end.

Definition onePageNoBatch : Remote := fun _ => inr (emptyPage []).

Definition notFound : error := EntityNotExistsError "workflow not found".
Definition timedOut : error := OtherError "context deadline exceeded".

Definition remoteFails (e : error) : Remote := fun _ => inl e.

Definition Applier : Type := history.ReplicateEventsV2Request -> option error.

Definition applyAll : Applier := fun _ => None.

(** Fails on the batch whose payload is [s]. *)
Definition failOn (s : string) (e : error) : Applier :=
  fun request =>
    match history.Events request with
    | Some b => if list_eq_dec Byte.byte_eq_dec (shared.Data b) (list_byte_of_string s)
                then Some e else None
    | None => None
    end.

(** A checker that always answers [t] and whose repair bumps the world. *)
Definition checker (t : checks.CheckResultType) : Invariant nat :=
  {| Check := fun execution w =>
       ({| checks.resultType := t |}, execution, w);
     Fix := fun _ w => ({| checks.applied := true |}, S w) |}.

Definition resender (remote : Remote) (apply : Applier)
    (check : option (Invariant nat)) : NDCHistoryResenderImpl nat :=
  NewNDCHistoryResender
    (fun _ w => (inr "domain-name", w))
    (fun _ request w => (remote (admin.NextPageToken request), w))
    (fun _ request w => (apply request, w))
    None
    check.

Definition unknownDomain : NDCHistoryResenderImpl nat :=
  NewNDCHistoryResender
    (fun _ w => (inl (OtherError "domain not found"), w))
    (fun _ request w => (inr page2, w))
    (fun _ request w => (None, w))
    (Some (fun _ => (5 * Second)%Z))
    None.

(** One call for execution (D1, W1, R1) over an unbounded range. *)
Definition send (n : NDCHistoryResenderImpl nat) (fuel : nat) : Result nat (option error) :=
  SendSingleWorkflowHistory 100%Z n fuel "D1" "W1" "R1" None None None None 0.

End Scenario.

(** ** What a trace shows *)

(** The requests handed to the replication function, in order. *)
Fixpoint replicated (tr : list Event) : list history.ReplicateEventsV2Request :=
  match tr with
  | [] => []
  | EvReplicate _ request _ :: tr' => request :: replicated tr'
  | _ :: tr' => replicated tr'
  end.

(** The pages the remote cluster answered with, in order. *)
Fixpoint okPages (tr : list Event) : list admin.GetWorkflowExecutionRawHistoryV2Response :=
  match tr with
  | [] => []
  | EvGetRawHistory _ _ (inr response) :: tr' => response :: okPages tr'
  | _ :: tr' => okPages tr'
  end.

(** The remote round trips: the token sent and the answer received. *)
Fixpoint fetchLog (tr : list Event)
  : list (bytes * (error + admin.GetWorkflowExecutionRawHistoryV2Response)) :=
  match tr with
  | [] => []
  | EvGetRawHistory _ request res :: tr' =>
      (admin.NextPageToken request, res) :: fetchLog tr'
  | _ :: tr' => fetchLog tr'
  end.

(** The error an event carries, when a collaborator answered with one. *)
Definition failureOf (ev : Event) : option error :=
  match ev with
  | EvGetDomainByID _ (inl e) => Some e
  | EvGetRawHistory _ _ (inl e) => Some e
  | EvReplicate _ _ (Some e) => Some e
  | _ => None
  end.

(** The errors the collaborators answered with, in order. *)
Fixpoint failures (tr : list Event) : list error :=
  match tr with
  | [] => []
  | ev :: tr' =>
      match failureOf ev with
      | Some e => e :: failures tr'
      | None => failures tr'
      end
  end.

(** The probes handed to [Check] and to [Fix]. *)
Fixpoint checkCalls (tr : list Event) : list checks.CurrentExecution :=
  match tr with
  | [] => []
  | EvCheck execution _ :: tr' => execution :: checkCalls tr'
  | _ :: tr' => checkCalls tr'
  end.

Fixpoint fixCalls (tr : list Event) : list checks.CurrentExecution :=
  match tr with
  | [] => []
  | EvFix execution _ :: tr' => execution :: fixCalls tr'
  | _ :: tr' => fixCalls tr'
  end.

Definition isLog (ev : Event) : bool :=
  match ev with
  | EvLogError _ _ => true
  | _ => false
  end.

(** An event of the fetch path: a domain lookup or a remote round trip. *)
Definition isFetch (ev : Event) : bool :=
  match ev with
  | EvGetDomainByID _ _ | EvGetRawHistory _ _ _ => true
  | _ => false
  end.

(** An error that is not routed through the repair gate: any error of the
    fetch path, and an error of the replication function other than
    [EntityNotExistsError]. *)
Definition failsFast (ev : Event) : option error :=
  match ev with
  | EvGetDomainByID _ (inl e) => Some e
  | EvGetRawHistory _ _ (inl e) => Some e
  | EvReplicate _ _ (Some (EntityNotExistsError _)) => None
  | EvReplicate _ _ (Some e) => Some e
  | _ => None
  end.

(** Each round trip carries the token the page before it returned; a round
    trip follows a page only if that page's token is not empty, and nothing
    follows an error. *)
Fixpoint chained (token : bytes)
    (l : list (bytes * (error + admin.GetWorkflowExecutionRawHistoryV2Response)))
  : Prop :=
  match l with
  | [] => True
  | (sent, res) :: rest =>
      sent = token /\
      match res with
      | inl _ => rest = []
      | inr response =>
          (rest <> [] -> admin.RespNextPageToken response <> []) /\
          chained (admin.RespNextPageToken response) rest
      end
  end.

(** ** The resend protocol

    The order in which one call talks to its collaborators, as an automaton
    over the trace. *)

Section Protocol.
Context (domainID workflowID runID : string).

(** The replication requests owed for one page of the remote history. *)
Definition requestsOf (response : admin.GetWorkflowExecutionRawHistoryV2Response)
  : list history.ReplicateEventsV2Request :=
  map (fun b => createReplicationRawRequest domainID workflowID runID b
                  (shared.GetItems (admin.VersionHistory response)))
      (admin.HistoryBatches response).

Definition requestOfBatch (b : historyBatch) : history.ReplicateEventsV2Request :=
  createReplicationRawRequest domainID workflowID runID
    (rawEventBatch b) (shared.GetItems (versionHistory b)).

(** What the fetch path owes next: nothing more, a domain lookup for the
    page after [token], or the round trip for it. *)
Inductive Due : Type :=
  | NoMore
  | Lookup (token : bytes)
  | Rpc (token : bytes) (domainName : string).

Definition dueAfter (token : bytes) : Due :=
  match token with
  | [] => NoMore
  | _ => Lookup token
  end.

Inductive Source : Type := FetchPath | Dispatch.

(** [Run due queue]: no error so far, [queue] holds the requests of the
    current page not replicated yet.  [Stop src e]: a collaborator
    answered with [e]. *)
Inductive PState : Type :=
  | Run (due : Due) (queue : list history.ReplicateEventsV2Request)
  | Stop (src : Source) (e : error).

Inductive Step : PState -> Event -> PState -> Prop :=
  | StepDomainOk token name :
      Step (Run (Lookup token) []) (EvGetDomainByID domainID (inr name))
           (Run (Rpc token name) [])
  | StepDomainErr token e :
      Step (Run (Lookup token) []) (EvGetDomainByID domainID (inl e))
           (Stop FetchPath e)
  | StepFetchOk token name ctx request response :
      admin.NextPageToken request = token ->
      admin.Domain request = Some name ->
      Step (Run (Rpc token name) []) (EvGetRawHistory ctx request (inr response))
           (Run (dueAfter (admin.RespNextPageToken response)) (requestsOf response))
  | StepFetchErr token name ctx request e :
      admin.NextPageToken request = token ->
      admin.Domain request = Some name ->
      Step (Run (Rpc token name) []) (EvGetRawHistory ctx request (inl e))
           (Stop FetchPath e)
  | StepReplicateOk due request queue ctx :
      Step (Run due (request :: queue)) (EvReplicate ctx request None)
           (Run due queue)
  | StepReplicateErr due request queue ctx e :
      Step (Run due (request :: queue)) (EvReplicate ctx request (Some e))
           (Stop Dispatch e)
  | StepLog src e msg tags :
      Step (Stop src e) (EvLogError msg tags) (Stop src e)
  | StepCheck m execution res :
      Step (Stop Dispatch (EntityNotExistsError m)) (EvCheck execution res)
           (Stop Dispatch (EntityNotExistsError m))
  | StepFix m execution res :
      Step (Stop Dispatch (EntityNotExistsError m)) (EvFix execution res)
           (Stop Dispatch (EntityNotExistsError m)).

Inductive Accepts : PState -> list Event -> PState -> Prop :=
  | AcceptsNil s : Accepts s [] s
  | AcceptsCons s ev s1 tr s2 :
      Step s ev s1 -> Accepts s1 tr s2 -> Accepts s (ev :: tr) s2.

(** The protocol state an iterator stands for. *)
Definition stateOf (iter : PagingIteratorImpl) : PState :=
  match pageErr iter with
  | Some e => Stop FetchPath e
  | None =>
      Run (dueAfter (pageToken iter))
          (map requestOfBatch (skipn (nextPageItemIndex iter) (pageItems iter)))
  end.

(** The error the call returns after a collaborator answered with [e]. *)
Definition returned (src : Source) (e e' : error) : Prop :=
  e' = e \/
  (src = Dispatch /\ (exists m, e = EntityNotExistsError m) /\ e' = ErrSkipTask).

(** How the outcome of a run with [fuel] relates to the state its trace
    ends in. *)
Definition Final (fuel : nat) (o : Outcome (option error)) (tr : list Event)
    (s : PState) : Prop :=
  match o with
  | Ret None => s = Run NoMore []
  | Ret (Some e') => exists src e, s = Stop src e /\ returned src e e'
  | NoFuel =>
      fuel <= List.length tr /\
      ((exists token, s = Run (Lookup token) []) \/
       (exists pre ctx request, tr = pre ++ [EvReplicate ctx request None]))
  | Panic _ => False
  end.

End Protocol.

(** ** Auxiliary definitions used to state the facts below *)

(** Whether an iterator holds an error or an item to hand out. *)
Definition hasMore (iter : PagingIteratorImpl) : bool :=
  match pageErr iter with
  | Some _ => true
  | None => nextPageItemIndex iter <? List.length (pageItems iter)
  end.

Definition advance (iter : PagingIteratorImpl) : PagingIteratorImpl :=
  {| pageToken := pageToken iter; pageErr := None;
     pageItems := pageItems iter;
     nextPageItemIndex := S (nextPageItemIndex iter) |}.

Definition handOut (iter : PagingIteratorImpl) : PagingIteratorImpl :=
  {| pageToken := pageToken iter; pageErr := None;
     pageItems := pageItems iter;
     nextPageItemIndex := nextPageItemIndex iter |}.

Definition identityTags (domainID workflowID runID : string) : list tag.Tag :=
  [tag.WorkflowDomainID domainID; tag.WorkflowID workflowID; tag.WorkflowRunID runID].

(** The request of one round trip to the remote cluster. *)
Definition fetchRequest (defaultPageSize : Z) (workflowID runID : string)
    (startEventID startEventVersion endEventID endEventVersion : option Z)
    (domainName : string) (token : bytes)
  : admin.GetWorkflowExecutionRawHistoryV2Request :=
  {| admin.Domain := Some domainName;
     admin.Execution := Some {| shared.WorkflowId := Some workflowID;
                                shared.RunId := Some runID |};
     admin.StartEventId := startEventID;
     admin.StartEventVersion := startEventVersion;
     admin.EndEventId := endEventID;
     admin.EndEventVersion := endEventVersion;
     admin.MaximumPageSize := Some defaultPageSize;
     admin.NextPageToken := token |}.

(** One [historyBatch] per raw batch of a page, each with the version history
    of the page. *)
Definition fanOut (response : admin.GetWorkflowExecutionRawHistoryV2Response)
  : list historyBatch :=
  map (fun b => {| versionHistory := admin.VersionHistory response;
                   rawEventBatch := b |})
      (admin.HistoryBatches response).

(** The probe of the repair gate. *)
Definition probeOf (domainID workflowID : string) : checks.CurrentExecution :=
  {| checks.Exec := {| checks.DomainID := domainID;
                       checks.WorkflowID := workflowID;
                       checks.State := persistence.WorkflowStateRunning |} |}.

(** The context of one call: the overall deadline, when the per-domain
    duration is configured and positive. *)
Definition callContext {W} (n : NDCHistoryResenderImpl W) (domainID : string) : Context :=
  match rereplicationTimeout n with
  | Some rereplicationTimeout =>
      if (0 <? rereplicationTimeout domainID)%Z
      then WithTimeout Background (rereplicationTimeout domainID)
      else Background
  | None => Background
  end.

(** A resender like [n], with the overall deadline [duration] for every
    domain. *)
Definition withDeadline (duration : Z) (n : NDCHistoryResenderImpl nat)
  : NDCHistoryResenderImpl nat :=
  NewNDCHistoryResender (domainCache n) (adminClient n) (historyReplicationFn n)
    (Some (fun _ => duration)) (currentExecutionCheck n).

(** ** Definitions used to state the further properties *)

(** The first call of a trace that a collaborator answered with an error,
    and the events after it. *)
Fixpoint afterFailure (tr : list Event) : option (Event * list Event) :=
  match tr with
  | [] => None
  | ev :: tr' =>
      match failureOf ev with
      | Some _ => Some (ev, tr')
      | None => afterFailure tr'
      end
  end.

(** The log entries the resender writes after a failed call that is not
    routed through the repair gate: [getHistory] logs a failure of the fetch
    path with the run ID, then [SendSingleWorkflowHistory] logs the error
    with the identity of the execution. *)
Definition logTail (domainID workflowID runID : string) (ev : Event) : list Event :=
  match ev with
  | EvGetDomainByID _ (inl e) =>
      [EvLogError "error getting domain" [tag.WorkflowRunID runID; tag.Error e];
       EvLogError "failed to get history events"
         (identityTags domainID workflowID runID ++ [tag.Error e])]
  | EvGetRawHistory _ _ (inl e) =>
      [EvLogError "error getting history" [tag.WorkflowRunID runID; tag.Error e];
       EvLogError "failed to get history events"
         (identityTags domainID workflowID runID ++ [tag.Error e])]
  | EvReplicate _ _ (Some e) =>
      [EvLogError "failed to replicate events"
         (identityTags domainID workflowID runID ++ [tag.Error e])]
  | _ => []
  end.

(** What the calls of one [SendSingleWorkflowHistory] look like: the domain
    looked up is the domain of the call; a round trip and a replication run
    under the fixed timeout layered on the context of the call; the request
    of a round trip is built from the arguments of the call; the probe is the
    probe of the call. *)
Definition callShape (defaultPageSize : Z) (ctx : Context)
    (domainID workflowID runID : string)
    (startEventID startEventVersion endEventID endEventVersion : option Z)
    (ev : Event) : Prop :=
  match ev with
  | EvGetDomainByID d _ => d = domainID
  | EvGetRawHistory c request _ =>
      c = WithTimeout ctx resendContextTimeout /\
      exists name,
        request = fetchRequest defaultPageSize workflowID runID
                    startEventID startEventVersion endEventID endEventVersion
                    name (admin.NextPageToken request)
  | EvReplicate c _ _ => c = WithTimeout ctx resendContextTimeout
  | EvCheck execution _ => execution = probeOf domainID workflowID
  | _ => True
  end.

(** What a fetch leaves in the iterator and in the trace: no failure, or the
    failed call of the fetch path followed by the log entry of
    [getHistory]. *)
Definition fetchLeaves (domainID workflowID runID : string)
    (tr : list Event) (iter' : PagingIteratorImpl) : Prop :=
  match pageErr iter' with
  | None => failures tr = []
  | Some e =>
      exists ev post,
        afterFailure tr = Some (ev, post) /\
        failsFast ev = Some e /\
        logTail domainID workflowID runID ev =
          post ++ [EvLogError "failed to get history events"
                     (identityTags domainID workflowID runID ++ [tag.Error e])] /\
        In e (failures tr)
  end.

(** A protocol state in which a round trip is owed has no request queued. *)
Definition settled (s : PState) : Prop :=
  match s with
  | Run (Rpc _ _) (_ :: _) => False
  | _ => True
  end.

(** The replication requests a page of the remote history calls for, written
    out field by field: one request per raw batch, in the order of the page,
    for the execution of the call, with the version history items of the
    page. *)
Definition expectedRequests (domainID workflowID runID : string)
    (page : admin.GetWorkflowExecutionRawHistoryV2Response)
  : list history.ReplicateEventsV2Request :=
  map (fun batch =>
         {| history.DomainUUID := Some domainID;
            history.WorkflowExecution :=
              Some {| shared.WorkflowId := Some workflowID;
                      shared.RunId := Some runID |};
            history.VersionHistoryItems :=
              match admin.VersionHistory page with
              | Some versionHistory => shared.Items versionHistory
              | None => []
              end;
            history.Events := batch |})
      (admin.HistoryBatches page).

(** A call to the invariant checker. *)
Definition isGateCall (ev : Event) : bool :=
  match ev with
  | EvCheck _ _ | EvFix _ _ => true
  | _ => false
  end.

(** * Facts about traces and about the protocol *)

Lemma replicated_app (t1 t2 : list Event) :
  replicated (t1 ++ t2) = replicated t1 ++ replicated t2.
Proof.
  induction t1 as [|ev t1 IH]; simpl; [reflexivity|].
  destruct ev; simpl; rewrite ?IH; reflexivity.
Qed.

Lemma okPages_app (t1 t2 : list Event) :
  okPages (t1 ++ t2) = okPages t1 ++ okPages t2.
Proof.
  induction t1 as [|ev t1 IH]; simpl; [reflexivity|].
  destruct ev as [| ? ? [|] | | | |]; simpl; rewrite ?IH; reflexivity.
Qed.

Lemma fetchLog_app (t1 t2 : list Event) :
  fetchLog (t1 ++ t2) = fetchLog t1 ++ fetchLog t2.
Proof.
  induction t1 as [|ev t1 IH]; simpl; [reflexivity|].
  destruct ev; simpl; rewrite ?IH; reflexivity.
Qed.

Lemma failures_app (t1 t2 : list Event) :
  failures (t1 ++ t2) = failures t1 ++ failures t2.
Proof.
  induction t1 as [|ev t1 IH]; simpl; [reflexivity|].
  destruct (failureOf ev); simpl; rewrite IH; reflexivity.
Qed.

Lemma checkCalls_app (t1 t2 : list Event) :
  checkCalls (t1 ++ t2) = checkCalls t1 ++ checkCalls t2.
Proof.
  induction t1 as [|ev t1 IH]; simpl; [reflexivity|].
  destruct ev; simpl; rewrite ?IH; reflexivity.
Qed.

Lemma fixCalls_app (t1 t2 : list Event) :
  fixCalls (t1 ++ t2) = fixCalls t1 ++ fixCalls t2.
Proof.
  induction t1 as [|ev t1 IH]; simpl; [reflexivity|].
  destruct ev; simpl; rewrite ?IH; reflexivity.
Qed.

Lemma logs_quiet (tr : list Event) :
  Forall (fun ev => isLog ev = true) tr ->
  replicated tr = [] /\ okPages tr = [] /\ fetchLog tr = [] /\
  failures tr = [] /\ checkCalls tr = [] /\ fixCalls tr = [].
Proof.
  induction 1 as [|ev tr Hev _ IH]; simpl; [repeat split|].
  destruct ev; simpl in Hev; try discriminate; exact IH.
Qed.

Lemma In_replicated ctx request res (tr : list Event) :
  In (EvReplicate ctx request res) tr -> In request (replicated tr).
Proof.
  induction tr as [|ev tr IH]; simpl; [tauto|].
  intros [-> | H]; [left; reflexivity|].
  destruct ev; simpl; auto.
Qed.

Lemma last_of_two {A} (pre p : list A) (a b x : A) :
  pre ++ a :: [b] = p ++ [x] -> b = x.
Proof.
  intros H. change (pre ++ a :: [b]) with (pre ++ [a] ++ [b]) in H.
  rewrite app_assoc in H. apply app_inj_tail in H. tauto.
Qed.

Section ProtocolFacts.
Context (domainID workflowID runID : string).

Local Abbreviation Step := (Step domainID workflowID runID).
Local Abbreviation Accepts := (Accepts domainID workflowID runID).
Local Abbreviation requestsOf := (requestsOf domainID workflowID runID).

Lemma Accepts_app s t1 s1 t2 s2 :
  Accepts s t1 s1 -> Accepts s1 t2 s2 -> Accepts s (t1 ++ t2) s2.
Proof.
  induction 1 as [|s ev sa tr sb Hstep _ IH]; simpl; intros H2; [exact H2|].
  econstructor; [exact Hstep | exact (IH H2)].
Qed.

Lemma Accepts_app_inv t1 : forall s t2 s2,
  Accepts s (t1 ++ t2) s2 -> exists s1, Accepts s t1 s1 /\ Accepts s1 t2 s2.
Proof.
  induction t1 as [|ev t1 IH]; simpl; intros s t2 s2 H.
  - exists s. split; [constructor | exact H].
  - inversion H as [|? ? sa ? ? Hstep Hrest]; subst.
    destruct (IH _ _ _ Hrest) as [s1 [Ha Hb]].
    exists s1. split; [econstructor; eassumption | exact Hb].
Qed.

Lemma Accepts_one s ev s' : Step s ev s' -> Accepts s [ev] s'.
Proof. intros H. econstructor; [exact H | constructor]. Qed.

(** Once a collaborator has failed, nothing is fetched or replicated. *)
Lemma Accepts_Stop src e tr s' :
  Accepts (Stop src e) tr s' ->
  s' = Stop src e /\ replicated tr = [] /\ okPages tr = [] /\
  fetchLog tr = [] /\ failures tr = [] /\
  Forall (fun ev => isFetch ev = false) tr.
Proof.
  intros H. remember (Stop src e) as s eqn:Hs. revert Hs.
  induction H as [|s ev sa tr sb Hstep _ IH]; intros Hs; subst.
  - repeat split; constructor.
  - inversion Hstep; subst; simpl;
      destruct (IH eq_refl) as (-> & ? & ? & ? & ? & ?);
      repeat split; try assumption; constructor; auto.
Qed.

(** Only the not-found answer of the replication function opens the repair
    gate; after any other error the trace holds log entries only. *)
Lemma Accepts_Stop_logs src e tr s' :
  Accepts (Stop src e) tr s' ->
  src = FetchPath \/ (forall m, e <> EntityNotExistsError m) ->
  Forall (fun ev => isLog ev = true) tr.
Proof.
  intros H Hsrc. remember (Stop src e) as s eqn:Hs. revert Hs.
  induction H as [|s ev sa tr sb Hstep _ IH]; intros Hs; subst.
  - constructor.
  - inversion Hstep; subst.
    + constructor; [reflexivity | apply IH; reflexivity].
    + destruct Hsrc as [Hsrc | Hsrc]; [discriminate | now elim (Hsrc m)].
    + destruct Hsrc as [Hsrc | Hsrc]; [discriminate | now elim (Hsrc m)].
Qed.

(** While no collaborator has failed, the requests replicated so far and
    those still queued are exactly the requests of the pages fetched. *)
Lemma Accepts_Run tr : forall s s',
  Accepts s tr s' ->
  forall due queue, s = Run due queue ->
  exists rest,
    replicated tr ++ rest = queue ++ flat_map requestsOf (okPages tr) /\
    (forall due' queue', s' = Run due' queue' ->
       rest = queue' /\ failures tr = [] /\
       checkCalls tr = [] /\ fixCalls tr = [] /\
       Forall (fun ev => isLog ev = false) tr).
Proof.
  induction tr as [|ev tr IH]; intros s s' H due queue Hs; subst.
  - inversion H; subst. exists queue. simpl. rewrite app_nil_r.
    split; [reflexivity|]. intros due' queue' Heq. inversion Heq; subst.
    repeat split; constructor.
  - inversion H as [|? ? sa ? ? Hstep Hrest]; subst.
    inversion Hstep; subst; simpl.
    + destruct (IH _ _ Hrest _ _ eq_refl) as [rest [E K]].
      exists rest. split; [exact E|]. intros due' queue' Heq.
      destruct (K _ _ Heq) as (? & ? & ? & ? & ?).
      repeat split; try assumption. constructor; auto.
    + destruct (Accepts_Stop _ _ _ _ Hrest) as (-> & R & P & _).
      rewrite R, P. exists []. split; [reflexivity|]. discriminate.
    + destruct (IH _ _ Hrest _ _ eq_refl) as [rest [E K]].
      exists rest. split; [exact E|]. intros due' queue' Heq.
      destruct (K _ _ Heq) as (? & ? & ? & ? & ?).
      repeat split; try assumption. constructor; auto.
    + destruct (Accepts_Stop _ _ _ _ Hrest) as (-> & R & P & _).
      rewrite R, P. exists []. split; [reflexivity|]. discriminate.
    + destruct (IH _ _ Hrest _ _ eq_refl) as [rest [E K]].
      exists rest. split; [simpl; f_equal; exact E|]. intros due' queue' Heq.
      destruct (K _ _ Heq) as (? & ? & ? & ? & ?).
      repeat split; try assumption. constructor; auto.
    + destruct (Accepts_Stop _ _ _ _ Hrest) as (-> & R & P & _).
      rewrite R, P. exists queue0. simpl. rewrite app_nil_r.
      split; [reflexivity|]. discriminate.
Qed.

(** The tokens sent follow the tokens received. *)
Lemma Accepts_chained tr : forall s s',
  Accepts s tr s' ->
  match s with
  | Run (Lookup token) _ | Run (Rpc token _) _ => chained token (fetchLog tr)
  | _ => fetchLog tr = []
  end.
Proof.
  induction tr as [|ev tr IH]; intros s s' H.
  - destruct s as [[| |] |]; simpl; auto.
  - inversion H as [|? ? sa ? ? Hstep Hrest]; subst.
    pose proof (IH _ _ Hrest) as K.
    inversion Hstep; subst; simpl in *;
      try exact K;
      try (rewrite K; exact I);
      try (split; [reflexivity | exact K]);
      try (destruct due; simpl in *; first [exact K | rewrite K; exact I]; fail).
    split; [reflexivity|].
    destruct (admin.RespNextPageToken response) as [|b token'] eqn:Et;
      simpl in K.
    + rewrite K. split; [congruence | exact I].
    + split; [discriminate | exact K].
Qed.

(** A trace that ends with nothing owed ends after a page with an empty
    token. *)
Lemma Accepts_ends tr : forall s s',
  Accepts s tr s' ->
  forall queue', s' = Run NoMore queue' ->
  (exists queue, s = Run NoMore queue) \/
  (exists pre sent response,
      fetchLog tr = pre ++ [(sent, inr response)] /\
      admin.RespNextPageToken response = []).
Proof.
  induction tr as [|ev tr IH]; intros s s' H queue' Hs'; subst.
  - inversion H; subst. left. eexists; reflexivity.
  - inversion H as [|? ? sa ? ? Hstep Hrest]; subst.
    pose proof (IH _ _ Hrest _ eq_refl) as K.
    inversion Hstep; subst; simpl;
      try (apply Accepts_Stop in Hrest; destruct Hrest as [Hrest _]; discriminate).
    + destruct K as [[q K] | K]; [discriminate | right; exact K].
    + destruct K as [[q K] | (pre & sent & resp & E & T)].
      * right. pose proof (Accepts_chained _ _ _ Hrest) as C.
        destruct (admin.RespNextPageToken response) eqn:Et; [|discriminate].
        simpl in C. rewrite C.
        exists [], (admin.NextPageToken request), response. split; auto.
      * right. exists ((admin.NextPageToken request, inr response) :: pre), sent, resp.
        rewrite E. split; auto.
    + destruct K as [[q K] | K]; [|right; exact K].
      inversion K; subst. left. eexists; reflexivity.
Qed.

Lemma Accepts_after_replicate s pre ctx request s' :
  Accepts s (pre ++ [EvReplicate ctx request None]) s' ->
  exists due queue, s' = Run due queue.
Proof.
  intros H. apply Accepts_app_inv in H. destruct H as [s1 [_ H]].
  inversion H as [|? ? sa ? ? Hstep Hrest]; subst.
  inversion Hrest; subst. inversion Hstep; subst. eauto.
Qed.

(** A trace that ends stopped holds the error it stopped on. *)
Lemma Accepts_stopped tr : forall s src e,
  Accepts s tr (Stop src e) ->
  (exists due queue, s = Run due queue) -> In e (failures tr).
Proof.
  induction tr as [|ev tr IH]; intros s src e H [due [queue ->]].
  - inversion H.
  - inversion H as [|? ? sa ? ? Hstep Hrest]; subst.
    inversion Hstep; subst; simpl;
      try (eapply IH; [exact Hrest | eauto]; fail);
      apply Accepts_Stop in Hrest; destruct Hrest as [[= -> ->] _];
      left; reflexivity.
Qed.

(** The outcome of a run whose trace ends stopped. *)
Lemma Final_stopped fuel o tr s src e :
  Accepts s tr (Stop src e) -> Final fuel o tr (Stop src e) ->
  exists e', o = Ret (Some e') /\ returned src e e'.
Proof.
  intros Ha. destruct o as [[e'|]| |]; simpl.
  - intros (src0 & e0 & [= <- <-] & Hr). eauto.
  - discriminate.
  - contradiction.
  - intros [_ [[token Hs] | (pre & c & rq & ->)]]; [discriminate|].
    apply Accepts_after_replicate in Ha. destruct Ha as (due & queue & Hs).
    discriminate.
Qed.

Lemma Final_stopped_fast fuel o tr s src e :
  Accepts s tr (Stop src e) -> Final fuel o tr (Stop src e) ->
  src = FetchPath \/ (forall m, e <> EntityNotExistsError m) ->
  o = Ret (Some e).
Proof.
  intros Ha Hf Hsrc.
  destruct (Final_stopped _ _ _ _ _ _ Ha Hf) as (e' & -> & [-> | (Hd & [m Hm] & _)]);
    [reflexivity|].
  destruct Hsrc as [-> | Hne]; [discriminate | now elim (Hne m)].
Qed.

End ProtocolFacts.

(** * Facts about the monad *)

Lemma bind_Ret {W A B} (m : M W A) (k : A -> M W B) w a w1 t1 :
  m w = mkResult (Ret a) w1 t1 ->
  bind m k w = mkResult (outcome (k a w1)) (final (k a w1)) (t1 ++ trace (k a w1)).
Proof. intros E. unfold bind. rewrite E. reflexivity. Qed.

Lemma bind_trace_prefix {W A B} (m : M W A) (k : A -> M W B) w :
  exists rest, trace (bind m k w) = trace (m w) ++ rest.
Proof.
  unfold bind. destruct (m w) as [[a| |] w1 t1]; simpl.
  - eexists; reflexivity.
  - exists []. now rewrite app_nil_r.
  - exists []. now rewrite app_nil_r.
Qed.

Lemma Result_eta {W A} (r : Result W A) :
  r = mkResult (outcome r) (final r) (trace r).
Proof. destruct r; reflexivity. Qed.

(** * Facts about the iterator and the resender *)

Section IteratorFacts.
Context {W : Type} (paginationFn : PaginationFn W).

Lemma HasNext_ready fuel iter w :
  hasMore iter = true ->
  HasNext paginationFn fuel iter w = mkResult (Ret (true, iter)) w [].
Proof.
  unfold hasMore. intros H.
  destruct fuel; simpl; destruct (pageErr iter); try reflexivity;
    rewrite H; reflexivity.
Qed.

Lemma Next_err fuel iter w e :
  pageErr iter = Some e ->
  Next paginationFn fuel iter w = mkResult (Ret (inl e, handOut iter)) w [].
Proof.
  intros E. unfold Next.
  rewrite (bind_Ret _ _ _ _ _ _ (HasNext_ready fuel iter w ltac:(unfold hasMore; now rewrite E))).
  simpl. rewrite E. reflexivity.
Qed.

Lemma Next_item fuel iter w item :
  pageErr iter = None ->
  nth_error (pageItems iter) (nextPageItemIndex iter) = Some item ->
  Next paginationFn fuel iter w = mkResult (Ret (inr item, advance iter)) w [].
Proof.
  intros E Hn. unfold Next.
  assert (Hlt : (nextPageItemIndex iter <? List.length (pageItems iter)) = true).
  { apply Nat.ltb_lt. apply nth_error_Some. congruence. }
  rewrite (bind_Ret _ _ _ _ _ _ (HasNext_ready fuel iter w ltac:(unfold hasMore; now rewrite E))).
  simpl. rewrite E, Hlt, Hn. reflexivity.
Qed.

Lemma HasNext_fetch fuel iter w :
  pageErr iter = None ->
  (nextPageItemIndex iter <? List.length (pageItems iter)) = false ->
  negb (List.length (pageToken iter) =? 0) = true ->
  HasNext paginationFn (S fuel) iter w =
  bind (getNextPage paginationFn iter) (HasNext paginationFn fuel) w.
Proof. intros E L T. cbn [HasNext]. rewrite E, L, T. reflexivity. Qed.

Lemma getNextPage_trace_prefix iter w :
  exists rest,
    trace (getNextPage paginationFn iter w) =
    trace (paginationFn (pageToken iter) w) ++ rest.
Proof. unfold getNextPage. apply bind_trace_prefix. Qed.

(** [HasNext] answers whether the iterator it leaves behind holds an error
    or an item. *)
Lemma HasNext_answer fuel : forall iter w more iter',
  outcome (HasNext paginationFn fuel iter w) = Ret (more, iter') ->
  more = hasMore iter'.
Proof.
  induction fuel as [|fuel IH]; intros iter w more iter'; simpl;
    destruct (pageErr iter) eqn:E; simpl;
    try (intros [= <- <-]; unfold hasMore; now rewrite E);
    destruct (nextPageItemIndex iter <? List.length (pageItems iter)) eqn:L;
    simpl; try (intros [= <- <-]; unfold hasMore; now rewrite E, L);
    destruct (negb (List.length (pageToken iter) =? 0)) eqn:T; simpl;
    try (intros [= <- <-]; unfold hasMore; now rewrite E, L);
    try discriminate.
  unfold bind.
  destruct (getNextPage paginationFn iter w) as [[it1| |] w1 t1] eqn:G; simpl;
    try discriminate.
  apply IH.
Qed.

End IteratorFacts.

Section ResenderFacts.
Context {W : Type} (defaultPageSize : Z) (n : NDCHistoryResenderImpl W).
Context (domainID workflowID runID : string).
Context (startEventID startEventVersion endEventID endEventVersion : option Z).
Context (ctx : Context).

Local Abbreviation pf :=
  (getPaginationFn defaultPageSize n ctx domainID workflowID runID
     startEventID startEventVersion endEventID endEventVersion).
Local Abbreviation request :=
  (fetchRequest defaultPageSize workflowID runID
     startEventID startEventVersion endEventID endEventVersion).
Local Abbreviation ctx' := (WithTimeout ctx resendContextTimeout).
Local Abbreviation Accepts := (Accepts domainID workflowID runID).
Local Abbreviation state := (stateOf domainID workflowID runID).
Local Abbreviation batchRequest := (requestOfBatch domainID workflowID runID).
Local Abbreviation loop :=
  (resendLoop n domainID workflowID runID ctx pf).

(** One call of the pagination function, by the answers of the domain cache
    and of the remote cluster. *)
Lemma getPaginationFn_run token w :
  pf token w =
  match domainCache n domainID w with
  | (inl e, w1) =>
      mkResult (Ret ([], [], Some e)) w1
        [EvGetDomainByID domainID (inl e);
         EvLogError "error getting domain" [tag.WorkflowRunID runID; tag.Error e]]
  | (inr name, w1) =>
      match adminClient n ctx' (request name token) w1 with
      | (inl e, w2) =>
          mkResult (Ret ([], [], Some e)) w2
            [EvGetDomainByID domainID (inr name);
             EvGetRawHistory ctx' (request name token) (inl e);
             EvLogError "error getting history" [tag.WorkflowRunID runID; tag.Error e]]
      | (inr response, w2) =>
          mkResult (Ret (fanOut response, admin.RespNextPageToken response, None)) w2
            [EvGetDomainByID domainID (inr name);
             EvGetRawHistory ctx' (request name token) (inr response)]
      end
  end.
Proof.
  unfold getPaginationFn, getHistory, bind, call, logError, ret. simpl.
  destruct (domainCache n domainID w) as [[e|name] w1]; simpl; [reflexivity|].
  unfold fetchRequest, StringPtr, Int32Ptr.
  destruct (adminClient n _ _ w1) as [[e|response] w2]; reflexivity.
Qed.

Lemma getNextPage_run iter w :
  getNextPage pf iter w =
  match domainCache n domainID w with
  | (inl e, w1) =>
      mkResult (Ret {| pageToken := []; pageErr := Some e;
                       pageItems := []; nextPageItemIndex := 0 |}) w1
        [EvGetDomainByID domainID (inl e);
         EvLogError "error getting domain" [tag.WorkflowRunID runID; tag.Error e]]
  | (inr name, w1) =>
      match adminClient n ctx' (request name (pageToken iter)) w1 with
      | (inl e, w2) =>
          mkResult (Ret {| pageToken := []; pageErr := Some e;
                           pageItems := []; nextPageItemIndex := 0 |}) w2
            [EvGetDomainByID domainID (inr name);
             EvGetRawHistory ctx' (request name (pageToken iter)) (inl e);
             EvLogError "error getting history" [tag.WorkflowRunID runID; tag.Error e]]
      | (inr response, w2) =>
          mkResult (Ret {| pageToken := admin.RespNextPageToken response;
                           pageErr := None;
                           pageItems := fanOut response;
                           nextPageItemIndex := 0 |}) w2
            [EvGetDomainByID domainID (inr name);
             EvGetRawHistory ctx' (request name (pageToken iter)) (inr response)]
      end
  end.
Proof.
  unfold getNextPage, bind. rewrite getPaginationFn_run.
  destruct (domainCache n domainID w) as [[e|name] w1]; simpl; [reflexivity|].
  destruct (adminClient n _ _ w1) as [[e|response] w2]; reflexivity.
Qed.

Lemma requestOfBatch_fanOut response :
  map batchRequest (fanOut response) = requestsOf domainID workflowID runID response.
Proof. unfold fanOut, requestsOf. rewrite map_map. reflexivity. Qed.

(** Fetching a page is one step of the fetch path of the protocol. *)
Lemma getNextPage_accepts iter w :
  exists iter',
    outcome (getNextPage pf iter w) = Ret iter' /\
    Accepts (Run (Lookup (pageToken iter)) []) (trace (getNextPage pf iter w))
            (state iter') /\
    1 <= List.length (trace (getNextPage pf iter w)).
Proof.
  rewrite getNextPage_run.
  destruct (domainCache n domainID w) as [[e|name] w1]; simpl.
  - eexists. split; [reflexivity|]. split; [|lia].
    unfold stateOf; simpl.
    econstructor; [constructor|]. apply Accepts_one. constructor.
  - destruct (adminClient n _ _ w1) as [[e|response] w2]; simpl.
    + eexists. split; [reflexivity|]. split; [|lia].
      unfold stateOf; simpl.
      econstructor; [constructor|].
      econstructor; [constructor; reflexivity|].
      apply Accepts_one. constructor.
    + eexists. split; [reflexivity|]. split; [|lia].
      unfold stateOf; simpl. rewrite requestOfBatch_fanOut.
      econstructor; [constructor|].
      apply Accepts_one. constructor; reflexivity.
Qed.

Lemma dueAfter_nonempty (token : bytes) :
  negb (List.length token =? 0) = true -> dueAfter token = Lookup token.
Proof. destruct token; simpl; [discriminate | reflexivity]. Qed.

Lemma dueAfter_empty (token : bytes) :
  negb (List.length token =? 0) = false -> dueAfter token = NoMore.
Proof. destruct token; simpl; [reflexivity | discriminate]. Qed.

Lemma stateOf_drained iter :
  pageErr iter = None ->
  (nextPageItemIndex iter <? List.length (pageItems iter)) = false ->
  state iter = Run (dueAfter (pageToken iter)) [].
Proof.
  intros E L. unfold stateOf. rewrite E.
  apply Nat.ltb_ge in L. rewrite (skipn_all2 _ L). reflexivity.
Qed.

(** [HasNext] follows the protocol: it leaves the iterator in the state its
    trace leads to, and runs out of fuel only when a page is due, after at
    least as many events as it had fuel. *)
Lemma HasNext_accepts fuel : forall iter w,
  let res := HasNext pf fuel iter w in
  match outcome res with
  | Ret (more, iter') =>
      Accepts (state iter) (trace res) (state iter') /\
      (more = false -> state iter' = Run NoMore [])
  | NoFuel =>
      (exists token, Accepts (state iter) (trace res) (Run (Lookup token) [])) /\
      fuel <= List.length (trace res)
  | Panic _ => False
  end.
Proof.
  induction fuel as [|fuel IH]; intros iter w; simpl.
  - destruct (pageErr iter) eqn:E; simpl.
    { split; [constructor | discriminate]. }
    destruct (nextPageItemIndex iter <? List.length (pageItems iter)) eqn:L; simpl.
    { split; [constructor | discriminate]. }
    destruct (negb (List.length (pageToken iter) =? 0)) eqn:T; simpl.
    + split; [|lia]. exists (pageToken iter).
      rewrite (stateOf_drained _ E L), (dueAfter_nonempty _ T). constructor.
    + split; [constructor|]. intros _.
      rewrite (stateOf_drained _ E L), (dueAfter_empty _ T). reflexivity.
  - destruct (pageErr iter) eqn:E; simpl.
    { split; [constructor | discriminate]. }
    destruct (nextPageItemIndex iter <? List.length (pageItems iter)) eqn:L; simpl.
    { split; [constructor | discriminate]. }
    destruct (negb (List.length (pageToken iter) =? 0)) eqn:T; simpl.
    + destruct (getNextPage_accepts iter w) as (it1 & Eo & Ha & Hl).
      rewrite (stateOf_drained _ E L), (dueAfter_nonempty _ T).
      unfold bind. rewrite Eo.
      specialize (IH it1 (final (getNextPage pf iter w))). simpl in IH.
      destruct (outcome (HasNext pf fuel it1 (final (getNextPage pf iter w))))
        as [[more it2]| |]; simpl.
      * destruct IH as [Hb Hm]. split; [|exact Hm].
        eapply Accepts_app; eassumption.
      * exact IH.
      * destruct IH as [[token Hb] Hf]. split.
        -- exists token. eapply Accepts_app; eassumption.
        -- rewrite length_app. lia.
    + split; [constructor|]. intros _.
      rewrite (stateOf_drained _ E L), (dueAfter_empty _ T). reflexivity.
Qed.

(** The fetch path never replicates and never consults the checker. *)
Lemma getNextPage_quiet iter w :
  replicated (trace (getNextPage pf iter w)) = [] /\
  checkCalls (trace (getNextPage pf iter w)) = [] /\
  fixCalls (trace (getNextPage pf iter w)) = [].
Proof.
  rewrite getNextPage_run.
  destruct (domainCache n domainID w) as [[e|name] w1]; simpl; [auto|].
  destruct (adminClient n _ _ w1) as [[e|response] w2]; simpl; auto.
Qed.

Lemma HasNext_quiet fuel : forall iter w,
  replicated (trace (HasNext pf fuel iter w)) = [] /\
  checkCalls (trace (HasNext pf fuel iter w)) = [] /\
  fixCalls (trace (HasNext pf fuel iter w)) = [].
Proof.
  induction fuel as [|fuel IH]; intros iter w; simpl;
    destruct (pageErr iter); simpl; auto;
    destruct (nextPageItemIndex iter <? List.length (pageItems iter)); simpl; auto;
    destruct (negb (List.length (pageToken iter) =? 0)); simpl; auto.
  unfold bind.
  destruct (getNextPage_accepts iter w) as (it1 & Eo & _).
  destruct (getNextPage_quiet iter w) as (R & C & F).
  rewrite Eo. simpl.
  destruct (IH it1 (final (getNextPage pf iter w))) as (R' & C' & F').
  rewrite replicated_app, checkCalls_app, fixCalls_app, R, C, F, R', C', F'.
  auto.
Qed.

(** The repair gate, by the answers of the invariant checker. *)
Lemma fixCurrentExecution_run w :
  fixCurrentExecution n domainID workflowID runID w =
  match currentExecutionCheck n with
  | None => mkResult (Ret false) w []
  | Some c =>
      match Check c (probeOf domainID workflowID) w with
      | (res, probe, w1) =>
          match checks.resultType res with
          | checks.CheckResultTypeCorrupted =>
              match Fix c probe w1 with
              | (fixed, w2) =>
                  mkResult (Ret false) w2
                    [EvCheck (probeOf domainID workflowID) res;
                     EvLogError "Encounter corrupted workflow"
                       (identityTags domainID workflowID runID);
                     EvFix probe fixed]
              end
          | checks.CheckResultTypeFailed =>
              mkResult (Ret false) w1 [EvCheck (probeOf domainID workflowID) res]
          | _ =>
              mkResult (Ret true) w1 [EvCheck (probeOf domainID workflowID) res]
          end
      end
  end.
Proof.
  unfold fixCurrentExecution, probeOf, identityTags.
  destruct (currentExecutionCheck n) as [c|]; [|reflexivity].
  unfold bind, call, logError, ret. simpl.
  destruct (Check c _ w) as [[res probe] w1]; simpl.
  destruct (checks.resultType res); simpl; try reflexivity.
  destruct (Fix c probe w1) as [fixed w2]; reflexivity.
Qed.

Lemma fixCurrentExecution_accepts m w :
  exists skip,
    outcome (fixCurrentExecution n domainID workflowID runID w) = Ret skip /\
    Accepts (Stop Dispatch (EntityNotExistsError m))
      (trace (fixCurrentExecution n domainID workflowID runID w))
      (Stop Dispatch (EntityNotExistsError m)).
Proof.
  rewrite fixCurrentExecution_run.
  destruct (currentExecutionCheck n) as [c|]; simpl.
  - destruct (Check c _ w) as [[res probe] w1].
    destruct (checks.resultType res); simpl;
      try (eexists; split; [reflexivity | apply Accepts_one; constructor]).
    destruct (Fix c probe w1) as [fixed w2]; simpl.
    eexists; split; [reflexivity|].
    repeat (econstructor; [constructor|]). constructor.
  - eexists; split; [reflexivity | constructor].
Qed.

Local Arguments HasNext : simpl never.
Local Arguments Next : simpl never.

(** One round of the loop, by what [HasNext] leaves behind and by the
    answer of the replication function. *)
Lemma resendLoop_step fuel iter w :
  loop fuel iter w =
  let h := HasNext pf fuel iter w in
  match outcome h with
  | Ret (true, it1) =>
      match pageErr it1 with
      | Some e =>
          mkResult (Ret (Some e)) (final h)
            (trace h ++ [EvLogError "failed to get history events"
                           (identityTags domainID workflowID runID ++ [tag.Error e])])
      | None =>
          match nth_error (pageItems it1) (nextPageItemIndex it1) with
          | Some item =>
              match historyReplicationFn n ctx' (batchRequest item) (final h) with
              | (None, w2) =>
                  match fuel with
                  | O => mkResult NoFuel w2
                           (trace h ++ [EvReplicate ctx' (batchRequest item) None])
                  | S fuel' =>
                      let r := loop fuel' (advance it1) w2 in
                      mkResult (outcome r) (final r)
                        (trace h ++ EvReplicate ctx' (batchRequest item) None :: trace r)
                  end
              | (Some (EntityNotExistsError m), w2) =>
                  let g := fixCurrentExecution n domainID workflowID runID w2 in
                  mkResult
                    match outcome g with
                    | Ret skip =>
                        Ret (Some (if skip then ErrSkipTask else EntityNotExistsError m))
                    | Panic msg => Panic msg
                    | NoFuel => NoFuel
                    end
                    (final g)
                    (trace h ++
                     EvReplicate ctx' (batchRequest item) (Some (EntityNotExistsError m))
                     :: trace g)
              | (Some e, w2) =>
                  mkResult (Ret (Some e)) w2
                    (trace h ++
                     [EvReplicate ctx' (batchRequest item) (Some e);
                      EvLogError "failed to replicate events"
                        (identityTags domainID workflowID runID ++ [tag.Error e])])
              end
          | None => mkResult (Panic "index out of range") (final h) (trace h)
          end
      end
  | Ret (false, _) => mkResult (Ret None) (final h) (trace h)
  | Panic msg => mkResult (Panic msg) (final h) (trace h)
  | NoFuel => mkResult NoFuel (final h) (trace h)
  end.
Proof.
  cbv zeta.
  pose proof (HasNext_answer pf fuel iter w) as Hans.
  destruct fuel as [|fuel']; simpl resendLoop; unfold bind at 1;
    destruct (HasNext pf _ iter w) as [[[more it1]| |] w1 t1] eqn:Hh;
    simpl; try reflexivity;
    specialize (Hans _ _ eq_refl); subst more;
    (destruct (hasMore it1) eqn:Hm; simpl; [| now rewrite app_nil_r]);
    unfold hasMore in Hm;
    (destruct (pageErr it1) as [e|] eqn:E;
     [ rewrite (bind_Ret _ _ _ _ _ _ (Next_err pf _ it1 w1 e E)); reflexivity |]);
    (destruct (nth_error (pageItems it1) (nextPageItemIndex it1)) as [item|] eqn:Hn;
     [| apply Nat.ltb_lt in Hm; apply nth_error_Some in Hm; contradiction ]);
    rewrite (bind_Ret _ _ _ _ _ _ (Next_item pf _ it1 w1 item E Hn)); simpl;
    unfold bind, sendReplicationRawRequest, call, logError, ret; simpl;
    destruct (historyReplicationFn n _ _ w1) as [[[m| |msg]|] w2]; simpl;
    try reflexivity;
    destruct (fixCurrentExecution n domainID workflowID runID w2)
      as [[[|]| |] w3 t3]; simpl; rewrite ?app_nil_r; reflexivity.
Qed.

Lemma skipn_nth_error {A} (l : list A) : forall i x,
  nth_error l i = Some x -> skipn i l = x :: skipn (S i) l.
Proof.
  induction l as [|a l IH]; intros [|i] x H; simpl in *; try discriminate.
  - congruence.
  - exact (IH _ _ H).
Qed.

Lemma stateOf_item iter item :
  pageErr iter = None ->
  nth_error (pageItems iter) (nextPageItemIndex iter) = Some item ->
  state iter = Run (dueAfter (pageToken iter)) (batchRequest item :: match state (advance iter) with Run _ q => q | Stop _ _ => [] end) /\
  exists queue, state (advance iter) = Run (dueAfter (pageToken iter)) queue.
Proof.
  intros E Hn. unfold stateOf, advance. simpl. rewrite E.
  rewrite (skipn_nth_error _ _ _ Hn). simpl. split; [reflexivity | eauto].
Qed.

Lemma Final_extend fuel o tr s fuel' pre :
  Final fuel o tr s -> fuel' <= fuel + List.length pre ->
  Final fuel' o (pre ++ tr) s.
Proof.
  destruct o as [[e|]| |]; simpl; auto.
  intros [Hl Hs] Hf. split; [rewrite length_app; lia|].
  destruct Hs as [Hs | (p & c & rq & ->)]; [left; exact Hs|].
  right. exists (pre ++ p), c, rq. now rewrite app_assoc.
Qed.

(** The loop follows the protocol, and its outcome is the one the final
    state of the protocol stands for. *)
Lemma resendLoop_accepts fuel : forall iter w,
  exists s',
    Accepts (state iter) (trace (loop fuel iter w)) s' /\
    Final fuel (outcome (loop fuel iter w)) (trace (loop fuel iter w)) s'.
Proof.
  induction fuel as [fuel IH] using (well_founded_induction lt_wf).
  intros iter w. rewrite resendLoop_step. cbv zeta.
  pose proof (HasNext_accepts fuel iter w) as Hh.
  pose proof (HasNext_answer pf fuel iter w) as Hans.
  cbv zeta in Hh.
  destruct (HasNext pf fuel iter w) as [[[more it1]| |] w1 t1]; simpl in Hh |- *;
    [ | contradiction
      | destruct Hh as [[token Ha] Hl]; exists (Run (Lookup token) []);
        split; [exact Ha | split; [exact Hl | left; eauto]] ].
  specialize (Hans _ _ eq_refl). destruct Hh as [Ha Hfalse].
  destruct more;
    [| exists (state it1); simpl; split; [exact Ha | exact (Hfalse eq_refl)]].
  unfold hasMore in Hans.
  destruct (pageErr it1) as [e|] eqn:E; simpl.
  { exists (Stop FetchPath e). split.
    - eapply Accepts_app; [exact Ha|].
      unfold stateOf. rewrite E. apply Accepts_one. constructor.
    - exists FetchPath, e. split; [reflexivity | left; reflexivity]. }
  destruct (nth_error (pageItems it1) (nextPageItemIndex it1)) as [item|] eqn:Hn;
    [| symmetry in Hans; apply Nat.ltb_lt in Hans; apply nth_error_Some in Hans;
       contradiction ].
  destruct (stateOf_item it1 item E Hn) as [Hs [queue Hq]].
  rewrite Hq in Hs. rewrite Hs in Ha.
  destruct (historyReplicationFn n _ _ w1) as [[[m| |msg]|] w2]; simpl.
  - destruct (fixCurrentExecution_accepts m w2) as (skip & Eo & Hg).
    rewrite Eo. exists (Stop Dispatch (EntityNotExistsError m)). split.
    + eapply Accepts_app; [exact Ha|]. econstructor; [constructor | exact Hg].
    + exists Dispatch, (EntityNotExistsError m). split; [reflexivity|].
      destruct skip; [right; eauto | left; reflexivity].
  - exists (Stop Dispatch SkipTaskSentinel). split.
    + eapply Accepts_app; [exact Ha|].
      econstructor; [constructor|]. apply Accepts_one. constructor.
    + exists Dispatch, SkipTaskSentinel. split; [reflexivity | left; reflexivity].
  - exists (Stop Dispatch (OtherError msg)). split.
    + eapply Accepts_app; [exact Ha|].
      econstructor; [constructor|]. apply Accepts_one. constructor.
    + exists Dispatch, (OtherError msg). split; [reflexivity | left; reflexivity].
  - destruct fuel as [|fuel']; simpl.
    + exists (Run (dueAfter (pageToken it1)) queue). split.
      * eapply Accepts_app; [exact Ha|]. apply Accepts_one. constructor.
      * split; [lia|]. right. eauto.
    + destruct (IH fuel' (Nat.lt_succ_diag_r fuel') (advance it1) w2)
        as (s' & Hacc & Hfin).
      rewrite Hq in Hacc. exists s'. split.
      * eapply Accepts_app; [exact Ha|]. econstructor; [constructor | exact Hacc].
      * change (t1 ++ EvReplicate ctx' (batchRequest item) None
                   :: trace (loop fuel' (advance it1) w2))
          with (t1 ++ [EvReplicate ctx' (batchRequest item) None]
                   ++ trace (loop fuel' (advance it1) w2)).
        rewrite app_assoc. eapply Final_extend; [exact Hfin|].
        rewrite length_app. simpl. lia.
Qed.

Lemma fixCurrentExecution_quiet w :
  replicated (trace (fixCurrentExecution n domainID workflowID runID w)) = [].
Proof.
  destruct (fixCurrentExecution_accepts "" w) as (skip & _ & Hg).
  apply Accepts_Stop in Hg. tauto.
Qed.

(** A not-found answer of the replication function is followed by the
    repair gate and by nothing else. *)
Lemma resendLoop_not_found fuel : forall iter w c rq m,
  In (EvReplicate c rq (Some (EntityNotExistsError m))) (trace (loop fuel iter w)) ->
  exists pre w0 w1 skip,
    historyReplicationFn n c rq w0 = (Some (EntityNotExistsError m), w1) /\
    outcome (fixCurrentExecution n domainID workflowID runID w1) = Ret skip /\
    trace (loop fuel iter w) =
      pre ++ EvReplicate c rq (Some (EntityNotExistsError m))
          :: trace (fixCurrentExecution n domainID workflowID runID w1) /\
    final (loop fuel iter w) = final (fixCurrentExecution n domainID workflowID runID w1) /\
    outcome (loop fuel iter w) =
      Ret (Some (if skip then ErrSkipTask else EntityNotExistsError m)).
Proof.
  induction fuel as [fuel IH] using (well_founded_induction lt_wf).
  intros iter w c rq m. rewrite resendLoop_step. cbv zeta.
  destruct (HasNext_quiet fuel iter w) as (Hq & _).
  assert (Hno : forall res, ~ In (EvReplicate c rq res) (trace (HasNext pf fuel iter w))).
  { intros res Hin. apply In_replicated in Hin. rewrite Hq in Hin. exact Hin. }
  destruct (HasNext pf fuel iter w) as [[[more it1]| |] w1 t1]; simpl in Hno |- *;
    try (intros Hin; now elim (Hno _ Hin)).
  destruct more; [| intros Hin; now elim (Hno _ Hin)].
  destruct (pageErr it1) as [e|]; simpl.
  { intros Hin. apply in_app_or in Hin. destruct Hin as [Hin | [Hin | []]];
      [now elim (Hno _ Hin) | discriminate]. }
  destruct (nth_error (pageItems it1) (nextPageItemIndex it1)) as [item|]; simpl;
    [| intros Hin; now elim (Hno _ Hin)].
  destruct (historyReplicationFn n ctx' (batchRequest item) w1)
    as [[[m'| |msg]|] w2] eqn:Hrep; simpl;
    [ | | | destruct fuel as [|fuel']; simpl ]; intros Hin;
    apply in_app_or in Hin; destruct Hin as [Hin | Hin];
    try (now elim (Hno _ Hin)).
  - destruct Hin as [Hin | Hin].
    + inversion Hin; subst.
      destruct (fixCurrentExecution_accepts m w2) as (skip & Eo & _).
      exists t1, w1, w2, skip. rewrite Eo. repeat split; assumption.
    + apply In_replicated in Hin. rewrite fixCurrentExecution_quiet in Hin.
      contradiction.
  - destruct Hin as [Hin | [Hin | []]]; discriminate.
  - destruct Hin as [Hin | [Hin | []]]; discriminate.
  - destruct Hin as [Hin | []]; discriminate.
  - destruct Hin as [Hin | Hin]; [discriminate|].
    destruct (IH fuel' (Nat.lt_succ_diag_r fuel') _ _ _ _ _ Hin)
      as (pre & w0 & w3 & skip & H1 & H2 & H3 & H4 & H5).
    exists (t1 ++ EvReplicate ctx' (batchRequest item) None :: pre), w0, w3, skip.
    rewrite H3, H4, H5, <- app_assoc. repeat split; assumption.
Qed.


End ResenderFacts.

Section CallFacts.
Context {W : Type} (defaultPageSize : Z) (n : NDCHistoryResenderImpl W).
Context (domainID workflowID runID : string).
Context (startEventID startEventVersion endEventID endEventVersion : option Z).

Local Abbreviation send :=
  (fun fuel => SendSingleWorkflowHistory defaultPageSize n fuel domainID workflowID runID
     startEventID startEventVersion endEventID endEventVersion).
Local Abbreviation pf :=
  (getPaginationFn defaultPageSize n (callContext n domainID) domainID workflowID runID
     startEventID startEventVersion endEventID endEventVersion).
Local Abbreviation loop :=
  (resendLoop n domainID workflowID runID (callContext n domainID) pf).
Local Abbreviation Accepts := (Accepts domainID workflowID runID).
Local Abbreviation state := (stateOf domainID workflowID runID).
Local Abbreviation gate := (fixCurrentExecution n domainID workflowID runID).

(** A call is the fetch of the first page followed by the loop. *)
Lemma SendSingleWorkflowHistory_run fuel w :
  exists it0 w0 t0,
    NewPagingIterator pf w = mkResult (Ret it0) w0 t0 /\
    Accepts (Run (Lookup []) []) t0 (state it0) /\
    replicated t0 = [] /\ checkCalls t0 = [] /\ fixCalls t0 = [] /\
    1 <= List.length t0 /\
    send fuel w =
      mkResult (outcome (loop fuel it0 w0)) (final (loop fuel it0 w0))
               (t0 ++ trace (loop fuel it0 w0)).
Proof.
  unfold NewPagingIterator.
  set (init := {| pageToken := []; pageErr := None;
                  pageItems := []; nextPageItemIndex := 0 |}).
  destruct (getNextPage_accepts defaultPageSize n domainID workflowID runID
              startEventID startEventVersion endEventID endEventVersion
              (callContext n domainID) init w) as (it0 & Eo & Ha & Hl).
  destruct (getNextPage_quiet defaultPageSize n domainID workflowID runID
              startEventID startEventVersion endEventID endEventVersion
              (callContext n domainID) init w) as (R & C & F).
  exists it0, (final (getNextPage pf init w)), (trace (getNextPage pf init w)).
  repeat split; try assumption.
  - rewrite <- Eo. apply Result_eta.
  - unfold SendSingleWorkflowHistory. fold (callContext n domainID).
    unfold NewPagingIterator. fold init.
    apply bind_Ret. rewrite <- Eo. apply Result_eta.
Qed.

(** Every call follows the resend protocol from its initial state, and its
    outcome is the one the final state stands for. *)
Lemma SendSingleWorkflowHistory_accepts fuel w :
  exists s',
    Accepts (Run (Lookup []) []) (trace (send fuel w)) s' /\
    Final fuel (outcome (send fuel w)) (trace (send fuel w)) s'.
Proof.
  destruct (SendSingleWorkflowHistory_run fuel w)
    as (it0 & w0 & t0 & _ & Ha & _ & _ & _ & _ & ->). simpl.
  destruct (resendLoop_accepts defaultPageSize n domainID workflowID runID
              startEventID startEventVersion endEventID endEventVersion
              (callContext n domainID) fuel it0 w0) as (s' & Hacc & Hfin).
  exists s'. split.
  - eapply Accepts_app; eassumption.
  - eapply Final_extend; [exact Hfin | lia].
Qed.

(** A call never panics, and it runs out of fuel only after at least as many
    events as it had fuel, none of them a failure. *)
Lemma SendSingleWorkflowHistory_total fuel w :
  (forall msg, outcome (send fuel w) <> Panic msg) /\
  (outcome (send fuel w) = NoFuel ->
   fuel <= List.length (trace (send fuel w)) /\ failures (trace (send fuel w)) = []).
Proof.
  destruct (SendSingleWorkflowHistory_accepts fuel w) as (s' & Ha & Hf). split.
  - intros msg Ho. rewrite Ho in Hf. exact Hf.
  - intros Ho. rewrite Ho in Hf. simpl in Hf. destruct Hf as [Hl Hs].
    split; [exact Hl|].
    assert (Hrun : exists due queue, s' = Run due queue).
    { destruct Hs as [[token ->] | (pre & c & rq & Htr)]; [eauto|].
      rewrite Htr in Ha. eapply Accepts_after_replicate. exact Ha. }
    destruct Hrun as (due & queue & ->).
    destruct (Accepts_Run _ _ _ _ _ _ Ha _ _ eq_refl) as (rest & _ & K).
    destruct (K _ _ eq_refl) as (_ & F & _). exact F.
Qed.

End CallFacts.

(** * The properties of the resender *)

Section Specification.
Context {W : Type} (defaultPageSize : Z) (n : NDCHistoryResenderImpl W).
Context (domainID workflowID runID : string).
Context (startEventID startEventVersion endEventID endEventVersion : option Z).

Local Abbreviation send :=
  (fun fuel => SendSingleWorkflowHistory defaultPageSize n fuel domainID workflowID runID
     startEventID startEventVersion endEventID endEventVersion).
Local Abbreviation pf :=
  (getPaginationFn defaultPageSize n (callContext n domainID) domainID workflowID runID
     startEventID startEventVersion endEventID endEventVersion).
Local Abbreviation gate := (fixCurrentExecution n domainID workflowID runID).
Local Abbreviation probe := (probeOf domainID workflowID).
Local Abbreviation accepted :=
  (SendSingleWorkflowHistory_accepts defaultPageSize n domainID workflowID runID
     startEventID startEventVersion endEventID endEventVersion).

(** C1: the repair gate is the four-way decision table.  Without a checker
    it answers skip=false and calls neither Check nor Fix.  With a checker
    it calls Check once, on the probe; on Corrupted it calls Fix exactly
    once, on that same probe object as Check left it, and answers
    skip=false; on CheckFailed it does not call Fix and answers skip=false;
    on any other outcome, Healthy included, it does not call Fix and
    answers skip=true. *)
Theorem fixCurrentExecution_decision_table (w : W) :
  match currentExecutionCheck n with
  | None =>
      outcome (gate w) = Ret false /\
      checkCalls (trace (gate w)) = [] /\ fixCalls (trace (gate w)) = []
  | Some c =>
      checkCalls (trace (gate w)) = [probe] /\
      match checks.resultType (fst (fst (Check c probe w))) with
      | checks.CheckResultTypeCorrupted =>
          outcome (gate w) = Ret false /\
          fixCalls (trace (gate w)) = [snd (fst (Check c probe w))]
      | checks.CheckResultTypeFailed =>
          outcome (gate w) = Ret false /\ fixCalls (trace (gate w)) = []
      | _ =>
          outcome (gate w) = Ret true /\ fixCalls (trace (gate w)) = []
      end
  end.
Proof.
  rewrite fixCurrentExecution_run.
  destruct (currentExecutionCheck n) as [c|]; [|repeat split].
  destruct (Check c probe w) as [[res probe'] w1]; simpl.
  destruct (checks.resultType res); simpl; try (repeat split; fail).
  destruct (Fix c probe' w1) as [fixed w2]; simpl. repeat split.
Qed.

(** C10: the probe handed to Check is in the running state and carries the
    domain ID and the workflow ID of the call, and Fix, when it is called, is
    handed that same object as Check left it; the skip decision depends on
    the outcome of Check only: two checkers that agree on it give the same
    decision whatever their Fix does, and Corrupted gives skip=false. *)
Theorem fixCurrentExecution_probe_and_decision :
  (forall c w, currentExecutionCheck n = Some c ->
     exists execution,
       checkCalls (trace (gate w)) = [execution] /\
       checks.State (checks.Exec execution) = persistence.WorkflowStateRunning /\
       checks.DomainID (checks.Exec execution) = domainID /\
       checks.WorkflowID (checks.Exec execution) = workflowID /\
       (fixCalls (trace (gate w)) = [] \/
        fixCalls (trace (gate w)) = [snd (fst (Check c execution w))])) /\
  (forall (n' : NDCHistoryResenderImpl W) c c' w w',
     currentExecutionCheck n = Some c ->
     currentExecutionCheck n' = Some c' ->
     checks.resultType (fst (fst (Check c probe w))) =
     checks.resultType (fst (fst (Check c' probe w'))) ->
     outcome (gate w) = outcome (fixCurrentExecution n' domainID workflowID runID w')) /\
  (forall c w, currentExecutionCheck n = Some c ->
     checks.resultType (fst (fst (Check c probe w))) = checks.CheckResultTypeCorrupted ->
     outcome (gate w) = Ret false).
Proof.
  split; [|split].
  - intros c w Hc. exists probe. rewrite fixCurrentExecution_run, Hc.
    destruct (Check c probe w) as [[res p1] w1]; simpl.
    destruct (checks.resultType res); simpl; try (repeat split; left; reflexivity).
    destruct (Fix c p1 w1) as [fixed w2]; simpl. repeat split. right. reflexivity.
  - intros n' c c' w w' Hc Hc' Hr.
    rewrite !fixCurrentExecution_run, Hc, Hc'.
    destruct (Check c probe w) as [[res p1] w1].
    destruct (Check c' probe w') as [[res' p1'] w1']. simpl in Hr.
    rewrite <- Hr.
    destruct (checks.resultType res); simpl; try reflexivity.
    destruct (Fix c p1 w1), (Fix c' p1' w1'); reflexivity.
  - intros c w Hc Hr. rewrite fixCurrentExecution_run, Hc.
    destruct (Check c probe w) as [[res p1] w1]. simpl in Hr. rewrite Hr.
    destruct (Fix c p1 w1). reflexivity.
Qed.

(** C7: the replication request is a function of its inputs alone: its
    fields are exactly the domain ID, the workflow ID, the run ID, the raw
    batch and the version history items it was given, and equal inputs give
    equal requests; within a call, every request handed to the replication
    function is the request of one raw batch of one fetched page, built
    with the version history items of that page. *)
Theorem createReplicationRawRequest_pure :
  (forall historyBlob versionHistoryItems,
     let request := createReplicationRawRequest domainID workflowID runID
                      historyBlob versionHistoryItems in
     history.DomainUUID request = Some domainID /\
     history.WorkflowExecution request =
       Some {| shared.WorkflowId := Some workflowID; shared.RunId := Some runID |} /\
     history.Events request = historyBlob /\
     history.VersionHistoryItems request = versionHistoryItems) /\
  (forall d1 w1 r1 b1 v1 d2 w2 r2 b2 v2,
     createReplicationRawRequest d1 w1 r1 b1 v1 =
     createReplicationRawRequest d2 w2 r2 b2 v2 <->
     (d1, w1, r1, b1, v1) = (d2, w2, r2, b2, v2)) /\
  (forall fuel w request,
     In request (replicated (trace (send fuel w))) ->
     exists page batch,
       In page (okPages (trace (send fuel w))) /\
       In batch (admin.HistoryBatches page) /\
       request = createReplicationRawRequest domainID workflowID runID batch
                   (shared.GetItems (admin.VersionHistory page))).
Proof.
  split; [|split].
  - intros historyBlob versionHistoryItems. cbv zeta. repeat split.
  - intros. split.
    + unfold createReplicationRawRequest, StringPtr. intros [= -> -> -> -> ->].
      reflexivity.
    + intros [= -> -> -> -> ->]. reflexivity.
  - intros fuel w request Hin.
    destruct (accepted fuel w) as (s' & Ha & _).
    destruct (Accepts_Run _ _ _ _ _ _ Ha _ _ eq_refl) as (rest & E & _).
    simpl in E.
    assert (Hin' : In request (flat_map (requestsOf domainID workflowID runID)
                                 (okPages (trace (send fuel w))))).
    { rewrite <- E. apply in_or_app. left. exact Hin. }
    apply in_flat_map in Hin'. destruct Hin' as (page & Hp & Hr).
    unfold requestsOf in Hr. apply in_map_iff in Hr.
    destruct Hr as (batch & <- & Hb). eauto.
Qed.

Local Abbreviation unfolded :=
  (SendSingleWorkflowHistory_run defaultPageSize n domainID workflowID runID
     startEventID startEventVersion endEventID endEventVersion).

(** C2: when the replication function answers a batch with
    [EntityNotExistsError], the repair gate is run next, for the identity
    of the call, and the call ends with it: it returns [ErrSkipTask] if the
    gate says skip and the not-found error itself otherwise. *)
Theorem not_found_routed_through_gate fuel w c rq m :
  In (EvReplicate c rq (Some (EntityNotExistsError m))) (trace (send fuel w)) ->
  exists pre w0 w1 skip,
    historyReplicationFn n c rq w0 = (Some (EntityNotExistsError m), w1) /\
    outcome (gate w1) = Ret skip /\
    trace (send fuel w) =
      pre ++ EvReplicate c rq (Some (EntityNotExistsError m)) :: trace (gate w1) /\
    final (send fuel w) = final (gate w1) /\
    outcome (send fuel w) =
      Ret (Some (if skip then ErrSkipTask else EntityNotExistsError m)) /\
    ErrSkipTask <> EntityNotExistsError m.
Proof.
  destruct (unfolded fuel w) as (it0 & w0 & t0 & _ & _ & R & _ & _ & _ & ->).
  simpl. intros Hin. apply in_app_or in Hin. destruct Hin as [Hin | Hin].
  - apply In_replicated in Hin. rewrite R in Hin. contradiction.
  - destruct (resendLoop_not_found defaultPageSize n domainID workflowID runID
                startEventID startEventVersion endEventID endEventVersion
                (callContext n domainID) fuel _ _ _ _ _ Hin)
      as (pre & w0' & w1 & skip & H1 & H2 & H3 & H4 & H5).
    exists (t0 ++ pre), w0', w1, skip.
    rewrite H3, H4, H5, <- app_assoc. repeat split; try assumption. discriminate.
Qed.

(** After an error that is not routed through the gate the call stops: it
    returns that error, the rest of the trace is log entries, and the
    checker is never called. *)
Lemma stops_after fuel w pre ev post e :
  trace (send fuel w) = pre ++ ev :: post -> failsFast ev = Some e ->
  outcome (send fuel w) = Ret (Some e) /\
  Forall (fun x => isLog x = true) post /\
  failures pre = [] /\
  checkCalls (trace (send fuel w)) = [] /\ fixCalls (trace (send fuel w)) = [].
Proof.
  intros Htr Hev. destruct (accepted fuel w) as (s' & Ha & Hf).
  pose proof Ha as Ha0.
  rewrite Htr in Ha. apply Accepts_app_inv in Ha. destruct Ha as (s1 & Hpre & Hpost).
  inversion Hpost as [|? ? s2 ? ? Hstep Hrest]; subst.
  assert (Hstop : exists src, s2 = Stop src e /\
                    (src = FetchPath \/ forall m, e <> EntityNotExistsError m) /\
                    exists due queue, s1 = Run due queue).
  { inversion Hstep; subst; simpl in Hev; try discriminate;
      try (injection Hev as <-; exists FetchPath;
           split; [reflexivity|]; split; [left; reflexivity | eauto]).
    exists Dispatch. destruct e0; try discriminate; injection Hev as <-;
      (split; [reflexivity|]; split; [right; discriminate | eauto]). }
  destruct Hstop as (src & -> & Hsrc & due & queue & ->).
  pose proof (Accepts_Stop _ _ _ _ _ _ _ Hrest) as (-> & _).
  pose proof (Accepts_Stop_logs _ _ _ _ _ _ _ Hrest Hsrc) as Hlogs.
  destruct (Accepts_Run _ _ _ _ _ _ Hpre _ _ eq_refl) as (rest & _ & K).
  destruct (K _ _ eq_refl) as (_ & Hfail & Hc & Hx & _).
  destruct (logs_quiet _ Hlogs) as (_ & _ & _ & _ & Hc' & Hx').
  split; [eapply Final_stopped_fast; eassumption|].
  split; [exact Hlogs|]. split; [exact Hfail|].
  rewrite Htr, checkCalls_app, fixCalls_app, Hc, Hx. simpl.
  destruct ev; simpl in Hev |- *; try discriminate; auto.
Qed.

(** C4: the call fails fast.  An error of the replication function other
    than [EntityNotExistsError], or any error of the fetch path, is
    returned at once: after it nothing is fetched or replicated, the trace
    only holds log entries.  And a call whose collaborators never failed,
    run with more fuel than it made calls, returns nil. *)
Theorem fail_fast_or_nil fuel w :
  (forall pre ev post e,
     trace (send fuel w) = pre ++ ev :: post -> failsFast ev = Some e ->
     outcome (send fuel w) = Ret (Some e) /\
     Forall (fun x => isLog x = true) post /\
     replicated post = [] /\ fetchLog post = []) /\
  (failures (trace (send fuel w)) = [] ->
   List.length (trace (send fuel w)) < fuel ->
   outcome (send fuel w) = Ret None).
Proof.
  split.
  - intros pre ev post e Htr Hev.
    destruct (stops_after _ _ _ _ _ _ Htr Hev) as (Ho & Hlogs & _).
    destruct (logs_quiet _ Hlogs) as (R & _ & F & _). auto.
  - intros Hfail Hlen. destruct (accepted fuel w) as (s' & Ha & Hf).
    destruct (outcome (send fuel w)) as [[e'|]| |]; simpl in Hf.
    + destruct Hf as (src & e & -> & _).
      apply Accepts_stopped in Ha; [|eauto]. rewrite Hfail in Ha. contradiction.
    + reflexivity.
    + contradiction.
    + lia.
Qed.

Lemma map_flat_map {A B C} (f : B -> C) (g : A -> list B) (l : list A) :
  map f (flat_map g l) = flat_map (fun x => map f (g x)) l.
Proof.
  induction l as [|x l IH]; simpl; [reflexivity|].
  rewrite map_app, IH. reflexivity.
Qed.

(** The requests the code builds for a page are the requests the page calls
    for. *)
Lemma requestsOf_expected page :
  requestsOf domainID workflowID runID page =
  expectedRequests domainID workflowID runID page.
Proof. reflexivity. Qed.

Lemma Events_expected (pages : list admin.GetWorkflowExecutionRawHistoryV2Response) :
  map history.Events (flat_map (expectedRequests domainID workflowID runID) pages) =
  flat_map admin.HistoryBatches pages.
Proof.
  rewrite map_flat_map. apply flat_map_ext. intros page.
  unfold expectedRequests. rewrite map_map. simpl. apply map_id.
Qed.

(** C5: the replication function sees the raw batches of the fetched pages
    in the order of the remote cluster.  The raw batches replicated are
    always an initial part of the raw batches of the pages fetched, page
    after page and batch after batch, and they are all of them when the call
    returns nil; each of them is sent in the request the page calls for, for
    the execution of the call and with the version history items of its
    page; and when a page is asked for, every batch of the pages before it
    has been replicated, with success. *)
Theorem replication_order fuel w :
  (exists rest,
     map history.Events (replicated (trace (send fuel w))) ++ rest =
     flat_map admin.HistoryBatches (okPages (trace (send fuel w)))) /\
  (outcome (send fuel w) = Ret None ->
   map history.Events (replicated (trace (send fuel w))) =
   flat_map admin.HistoryBatches (okPages (trace (send fuel w)))) /\
  (exists rest,
     replicated (trace (send fuel w)) ++ rest =
     flat_map (expectedRequests domainID workflowID runID)
       (okPages (trace (send fuel w)))) /\
  (forall pre c rq res post,
     trace (send fuel w) = pre ++ EvGetRawHistory c rq res :: post ->
     map history.Events (replicated pre) =
     flat_map admin.HistoryBatches (okPages pre) /\
     failures pre = []).
Proof.
  destruct (accepted fuel w) as (s' & Ha & Hf).
  destruct (Accepts_Run _ _ _ _ _ _ Ha _ _ eq_refl) as (rest & E & K).
  simpl in E.
  rewrite (flat_map_ext _ _ requestsOf_expected) in E.
  pose proof (f_equal (map history.Events) E) as EE.
  rewrite map_app, Events_expected in EE.
  split; [eauto|]. split; [|split; [eauto|]].
  - intros Ho. rewrite Ho in Hf. simpl in Hf.
    destruct (K _ _ Hf) as (-> & _). simpl in EE. rewrite app_nil_r in EE. exact EE.
  - intros pre c rq res post Htr. rewrite Htr in Ha.
    apply Accepts_app_inv in Ha. destruct Ha as (s1 & Hpre & Hpost).
    inversion Hpost as [|? ? s2 ? ? Hstep _]; subst.
    destruct (Accepts_Run _ _ _ _ _ _ Hpre _ _ eq_refl) as (rest' & E' & K').
    simpl in E'.
    rewrite (flat_map_ext _ _ requestsOf_expected) in E'.
    apply (f_equal (map history.Events)) in E'.
    rewrite map_app, Events_expected in E'.
    inversion Hstep; subst;
      destruct (K' _ _ eq_refl) as (-> & Hfail & _);
      simpl in E'; rewrite app_nil_r in E'; auto.
Qed.

(** C6: for a page of the remote history the pagination function yields
    one [historyBatch] per raw batch, in order, each with the version
    history of the page, and the round trip carries the token it was
    given.  Within a call the first round trip carries the nil token, each
    later one the token of the page before it, which is not empty; and a
    call that returns nil ended on a page with an empty token.  For the
    driver: once the items of a page are used up, an empty token ends the
    sequence without a fetch, and a non-empty token makes the driver call
    the pagination function with that token. *)
Theorem pagination_fan_out_and_tokens :
  (forall token w name w1 response w2,
     domainCache n domainID w = (inr name, w1) ->
     adminClient n (WithTimeout (callContext n domainID) resendContextTimeout)
       (fetchRequest defaultPageSize workflowID runID
          startEventID startEventVersion endEventID endEventVersion name token) w1
     = (inr response, w2) ->
     outcome (pf token w) =
       Ret (map (fun b => {| versionHistory := admin.VersionHistory response;
                             rawEventBatch := b |})
                (admin.HistoryBatches response),
            admin.RespNextPageToken response, None) /\
     fetchLog (trace (pf token w)) = [(token, inr response)]) /\
  (forall fuel iter w,
     pageErr iter = None ->
     List.length (pageItems iter) <= nextPageItemIndex iter ->
     (pageToken iter = [] ->
      HasNext pf fuel iter w = mkResult (Ret (false, iter)) w []) /\
     (pageToken iter <> [] ->
      exists rest,
        trace (HasNext pf (S fuel) iter w) = trace (pf (pageToken iter) w) ++ rest)) /\
  (forall fuel w,
     chained [] (fetchLog (trace (send fuel w))) /\
     (outcome (send fuel w) = Ret None ->
      exists pre sent response,
        fetchLog (trace (send fuel w)) = pre ++ [(sent, inr response)] /\
        admin.RespNextPageToken response = [])).
Proof.
  split; [|split].
  - intros token w name w1 response w2 Hd Hr.
    rewrite getPaginationFn_run, Hd, Hr. split; reflexivity.
  - intros fuel iter w E L. apply Nat.ltb_ge in L. split.
    + intros T. destruct fuel; simpl; rewrite E, L, T; reflexivity.
    + intros T.
      assert (Hn : negb (List.length (pageToken iter) =? 0) = true)
        by (destruct (pageToken iter); [now elim T | reflexivity]).
      rewrite (HasNext_fetch pf fuel iter w E L Hn).
      destruct (bind_trace_prefix (getNextPage pf iter) (HasNext pf fuel) w) as [r1 ->].
      destruct (getNextPage_trace_prefix pf iter w) as [r2 ->].
      exists (r2 ++ r1). rewrite app_assoc. reflexivity.
  - intros fuel w. destruct (accepted fuel w) as (s' & Ha & Hf). split.
    + exact (Accepts_chained _ _ _ _ _ _ Ha).
    + intros Ho. rewrite Ho in Hf. simpl in Hf.
      destruct (Accepts_ends _ _ _ _ _ _ Ha _ Hf) as [[queue Hq] | H];
        [discriminate | exact H].
Qed.


(** C9: for a page without raw batches the pagination function yields an
    empty item list and no error, and nothing is replicated for it.  In a
    call, such a page with an empty token is the last event and the call
    returns nil; with a non-empty token the next event is the domain
    lookup of the next round trip, which carries that token, unless the
    fuel ran out there, which takes at least as many events as fuel. *)
Theorem empty_page_is_skipped :
  (forall token w name w1 response w2,
     domainCache n domainID w = (inr name, w1) ->
     adminClient n (WithTimeout (callContext n domainID) resendContextTimeout)
       (fetchRequest defaultPageSize workflowID runID
          startEventID startEventVersion endEventID endEventVersion name token) w1
     = (inr response, w2) ->
     admin.HistoryBatches response = [] ->
     outcome (pf token w) = Ret ([], admin.RespNextPageToken response, None) /\
     replicated (trace (pf token w)) = []) /\
  (forall fuel w pre c rq response post,
     trace (send fuel w) = pre ++ EvGetRawHistory c rq (inr response) :: post ->
     admin.HistoryBatches response = [] ->
     (admin.RespNextPageToken response = [] ->
      post = [] /\ outcome (send fuel w) = Ret None) /\
     (admin.RespNextPageToken response <> [] ->
      (post = [] /\ outcome (send fuel w) = NoFuel /\
       fuel <= List.length (trace (send fuel w))) \/
      (exists a post',
         post = EvGetDomainByID domainID a :: post' /\
         forall name, a = inr name ->
           exists c' rq' a' post'',
             post' = EvGetRawHistory c' rq' a' :: post'' /\
             admin.NextPageToken rq' = admin.RespNextPageToken response))).
Proof.
  split.
  - intros token w name w1 response w2 Hd Hr Hb.
    rewrite getPaginationFn_run, Hd, Hr. unfold fanOut. rewrite Hb.
    split; reflexivity.
  - intros fuel w pre c rq response post Htr Hb.
    destruct (accepted fuel w) as (s' & Ha & Hf).
    pose proof Ha as Ha0. rewrite Htr in Ha.
    apply Accepts_app_inv in Ha. destruct Ha as (s1 & Hpre & Hpost).
    inversion Hpost as [|? ? s2 ? ? Hstep Hrest]; subst.
    inversion Hstep; subst. unfold requestsOf in Hrest. rewrite Hb in Hrest.
    simpl in Hrest. split.
    + intros Ht. rewrite Ht in Hrest. simpl in Hrest.
      inversion Hrest as [|? ? s3 ? ? Hstep3 Hrest3]; subst;
        [|inversion Hstep3].
      split; [reflexivity|].
      destruct (outcome (send fuel w)) as [[e'|]| |]; simpl in Hf.
      * destruct Hf as (src & e & Hs & _). discriminate.
      * reflexivity.
      * contradiction.
      * destruct Hf as [_ [[token Hs] | (p & c0 & rq0 & Hp)]]; [discriminate|].
        rewrite Htr in Hp. apply app_inj_tail in Hp. destruct Hp as [_ Hp].
        discriminate.
    + intros Ht.
      destruct (admin.RespNextPageToken response) as [|b token'] eqn:Et;
        [now elim Ht|]. simpl in Hrest.
      inversion Hrest as [|? ? s3 ? ? Hstep3 Hrest3]; subst.
      * left. split; [reflexivity|].
        destruct (outcome (send fuel w)) as [[e'|]| |]; simpl in Hf.
        -- destruct Hf as (src & e & Hs & _). discriminate.
        -- discriminate.
        -- contradiction.
        -- split; [reflexivity | exact (proj1 Hf)].
      * right. inversion Hstep3; subst.
        -- eexists _, _. split; [reflexivity|]. intros nm [= <-].
           inversion Hrest3 as [|? ? s4 ? ? Hstep4 Hrest4]; subst.
           ++ exfalso.
              destruct (outcome (send fuel w)) as [[e'|]| |]; simpl in Hf.
              ** destruct Hf as (src & e & Hs & _). discriminate.
              ** discriminate.
              ** contradiction.
              ** destruct Hf as [_ [[token Hs] | (p & c0 & rq0 & Hp)]];
                   [discriminate|].
                 rewrite Htr in Hp. apply last_of_two in Hp. discriminate.
           ++ inversion Hstep4; subst; eexists _, _, _, _;
                (split; [reflexivity|]); assumption.
        -- eexists _, _. split; [reflexivity|]. discriminate.
Qed.

End Specification.

(** * The properties at work on concrete calls *)

Import Scenario.

(** The scenario of the specification: two pages, three batches then one,
    every batch applied: the call returns nil after two round trips and four
    replication requests. *)
Example two_pages_four_batches :
  let r := send (resender twoPages applyAll None) 10 in
  outcome r = Ret None /\
  List.length (fetchLog (trace r)) = 2 /\
  map history.Events (replicated (trace r)) = [blob "b1"; blob "b2"; blob "b3"; blob "b4"].
Proof. vm_compute. repeat split. Qed.

(** No checker: a not-found answer of the replication function is returned
    as it is. *)
Example not_found_without_checker :
  outcome (send (resender twoPages (failOn "b1" notFound) None) 10) = Ret (Some notFound).
Proof. vm_compute. reflexivity. Qed.

(** The domain cannot be resolved: the call returns that error and no round
    trip to the remote cluster is made. *)
Example unknown_domain :
  outcome (send unknownDomain 10) = Ret (Some (OtherError "domain not found")) /\
  fetchLog (trace (send unknownDomain 10)) = [] /\
  replicated (trace (send unknownDomain 10)) = [].
Proof. vm_compute. repeat split. Qed.

Lemma not_found_routed_through_gate_witness :
  let n := resender twoPages (failOn "b2" notFound)
             (Some (checker checks.CheckResultTypeHealthy)) in
  outcome (send n 10) = Ret (Some ErrSkipTask).
Proof.
  intros n.
  destruct (not_found_routed_through_gate 100%Z n "D1" "W1" "R1" None None None None
              10 0 (WithTimeout Background resendContextTimeout)
              (createReplicationRawRequest "D1" "W1" "R1" (blob "b2")
                 (shared.GetItems (lineage 1)))
              "workflow not found")
    as (pre & w0 & w1 & skip & _ & Hg & _ & _ & Ho & _).
  - vm_compute. do 3 right. left. reflexivity.
  - vm_compute in Hg. injection Hg as <-. exact Ho.
Defined.

(** C3, as stated, fails: the remote fetch reports not-found, a checker is
    configured and answers Healthy, and the call returns the not-found error,
    not [ErrSkipTask]; the checker is not even consulted. *)
Lemma fetch_not_found_is_not_skipped :
  let n := resender (remoteFails notFound) applyAll
             (Some (checker checks.CheckResultTypeHealthy)) in
  fetchLog (trace (send n 10)) = [([], inl (EntityNotExistsError "workflow not found"))] /\
  outcome (send n 10) <> Ret (Some ErrSkipTask) /\
  outcome (send n 10) = Ret (Some (EntityNotExistsError "workflow not found")) /\
  checkCalls (trace (send n 10)) = [].
Proof. vm_compute. repeat split. discriminate. Qed.

Lemma fail_fast_or_nil_witness :
  outcome (send (resender twoPages (failOn "b4" timedOut) None) 10) = Ret (Some timedOut) /\
  outcome (send (resender twoPages applyAll None) 10) = Ret None.
Proof.
  split.
  - set (n := resender twoPages (failOn "b4" timedOut) None).
    refine (proj1 (proj1 (fail_fast_or_nil 100%Z n "D1" "W1" "R1" None None None None 10 0)
                     (firstn 7 (trace (send n 10)))
                     (nth 7 (trace (send n 10)) (EvLogError "" []))
                     (skipn 8 (trace (send n 10))) timedOut _ _));
      vm_compute; reflexivity.
  - apply (proj2 (fail_fast_or_nil 100%Z (resender twoPages applyAll None)
                    "D1" "W1" "R1" None None None None 10 0));
      vm_compute; [reflexivity | repeat constructor].
Defined.

Lemma replication_order_witness :
  let r := send (resender twoPages applyAll None) 10 in
  map history.Events (replicated (trace r)) =
  flat_map admin.HistoryBatches (okPages (trace r)) /\
  flat_map admin.HistoryBatches (okPages (trace r)) =
  [blob "b1"; blob "b2"; blob "b3"; blob "b4"].
Proof.
  intros r. split; [|vm_compute; reflexivity].
  apply (proj1 (proj2 (replication_order 100%Z (resender twoPages applyAll None)
                         "D1" "W1" "R1" None None None None 10 0))).
  vm_compute. reflexivity.
Defined.

Lemma pagination_fan_out_and_tokens_witness :
  let r := send (resender twoPages applyAll None) 10 in
  exists pre sent response,
    fetchLog (trace r) = pre ++ [(sent, inr response)] /\
    admin.RespNextPageToken response = [].
Proof.
  intros r.
  apply (proj2 (proj2 (proj2 (pagination_fan_out_and_tokens 100%Z
                                (resender twoPages applyAll None)
                                "D1" "W1" "R1" None None None None)) 10 0)).
  vm_compute. reflexivity.
Defined.

Lemma createReplicationRawRequest_pure_witness :
  let r := send (resender twoPages applyAll None) 10 in
  exists page batch,
    In page (okPages (trace r)) /\
    In batch (admin.HistoryBatches page) /\
    createReplicationRawRequest "D1" "W1" "R1" (blob "b4") (shared.GetItems (lineage 2)) =
    createReplicationRawRequest "D1" "W1" "R1" batch
      (shared.GetItems (admin.VersionHistory page)).
Proof.
  intros r.
  apply (proj2 (proj2 (createReplicationRawRequest_pure 100%Z
                         (resender twoPages applyAll None)
                         "D1" "W1" "R1" None None None None)) 10 0).
  vm_compute. do 3 right. left. reflexivity.
Defined.



Lemma empty_page_is_skipped_witness :
  let r := send (resender onePageNoBatch applyAll None) 10 in
  trace r = [EvGetDomainByID "D1" (inr "domain-name");
             EvGetRawHistory (WithTimeout Background resendContextTimeout)
               (fetchRequest 100%Z "W1" "R1" None None None None "domain-name" [])
               (inr (emptyPage []))] /\
  outcome r = Ret None.
Proof.
  intros r. split; [vm_compute; reflexivity|].
  refine (proj2 (proj1 (proj2 (empty_page_is_skipped 100%Z
                                 (resender onePageNoBatch applyAll None)
                                 "D1" "W1" "R1" None None None None)
                          10 0 [EvGetDomainByID "D1" (inr "domain-name")]
                          (WithTimeout Background resendContextTimeout)
                          (fetchRequest 100%Z "W1" "R1" None None None None "domain-name" [])
                          (emptyPage []) [] _ _) _));
    vm_compute; reflexivity.
Defined.

Lemma fixCurrentExecution_probe_and_decision_witness :
  let n := resender twoPages applyAll (Some (checker checks.CheckResultTypeCorrupted)) in
  exists execution,
    checkCalls (trace (fixCurrentExecution n "D1" "W1" "R1" 0)) = [execution] /\
    checks.State (checks.Exec execution) = persistence.WorkflowStateRunning /\
    checks.DomainID (checks.Exec execution) = "D1" /\
    checks.WorkflowID (checks.Exec execution) = "W1" /\
    (fixCalls (trace (fixCurrentExecution n "D1" "W1" "R1" 0)) = [] \/
     fixCalls (trace (fixCurrentExecution n "D1" "W1" "R1" 0)) =
     [snd (fst (Check (checker checks.CheckResultTypeCorrupted) execution 0))]).
Proof.
  intros n.
  apply (proj1 (fixCurrentExecution_probe_and_decision n "D1" "W1" "R1")
           (checker checks.CheckResultTypeCorrupted) 0).
  reflexivity.
Defined.

(** * Further facts about traces and about the protocol *)

Lemma afterFailure_clean (t1 t2 : list Event) :
  failures t1 = [] -> afterFailure (t1 ++ t2) = afterFailure t2.
Proof.
  induction t1 as [|ev t1 IH]; simpl; [reflexivity|].
  destruct (failureOf ev); [discriminate | exact IH].
Qed.

Lemma afterFailure_found (t1 t2 : list Event) ev post :
  afterFailure t1 = Some (ev, post) ->
  afterFailure (t1 ++ t2) = Some (ev, post ++ t2).
Proof.
  induction t1 as [|ev1 t1 IH]; simpl; [discriminate|].
  destruct (failureOf ev1); [intros [= <- <-]; reflexivity | exact IH].
Qed.

Lemma afterFailure_None (tr : list Event) :
  failures tr = [] -> afterFailure tr = None.
Proof.
  induction tr as [|ev tr IH]; simpl; [reflexivity|].
  destruct (failureOf ev); [discriminate | exact IH].
Qed.

Lemma afterFailure_split (pre post : list Event) ev e :
  failures pre = [] -> failureOf ev = Some e ->
  afterFailure (pre ++ ev :: post) = Some (ev, post).
Proof.
  intros Hpre Hev. rewrite (afterFailure_clean _ _ Hpre). simpl. now rewrite Hev.
Qed.

Lemma failsFast_failureOf ev e : failsFast ev = Some e -> failureOf ev = Some e.
Proof.
  destruct ev as [? [|]|? ? [|]|? ? [[| |]|]| | |]; simpl; congruence.
Qed.

Lemma gateCall_counted (tr : list Event) ev :
  In ev tr -> isGateCall ev = true -> checkCalls tr = [] -> fixCalls tr = [] -> False.
Proof.
  induction tr as [|ev1 tr IH]; simpl; [tauto|].
  intros [-> | Hin] Hg Hc Hx.
  - destruct ev; simpl in *; discriminate.
  - destruct ev1; simpl in *; try discriminate; eauto.
Qed.

Section MoreProtocolFacts.
Context (domainID workflowID runID : string).

Local Abbreviation Step := (Step domainID workflowID runID).
Local Abbreviation Accepts := (Accepts domainID workflowID runID).

Lemma Step_settled s ev s' : Step s ev s' -> settled s -> settled s'.
Proof.
  intros H Hs. inversion H; subst; simpl in *; auto;
    repeat match goal with
           | |- context [dueAfter ?t] => destruct t; simpl
           | d : Due |- _ => destruct d; simpl in *
           end; auto; contradiction.
Qed.

(** A trace that leaves a round trip owed ends with the domain lookup that
    answered with the name the round trip will carry. *)
Lemma Accepts_owes_rpc tr : forall s token name queue,
  Accepts s tr (Run (Rpc token name) queue) -> settled s ->
  (tr = [] /\ s = Run (Rpc token name) queue) \/
  exists pre, tr = pre ++ [EvGetDomainByID domainID (inr name)].
Proof.
  induction tr as [|ev tr IH]; intros s token name queue H Hs.
  - inversion H; subst. left. split; reflexivity.
  - right. inversion H as [|? ? s1 ? ? Hstep Hrest]; subst.
    destruct (IH _ _ _ _ Hrest (Step_settled _ _ _ Hstep Hs)) as [[-> ->] | [pre ->]].
    + inversion Hstep; subst; simpl in Hs; try contradiction;
        try (exists []; reflexivity).
      match goal with
      | E : dueAfter ?t = _ |- _ => destruct t; discriminate
      end.
    + exists (ev :: pre). reflexivity.
Qed.

(** A call stops at the first error of a collaborator. *)
Lemma Accepts_one_failure tr : forall s s',
  Accepts s tr s' -> List.length (failures tr) <= 1.
Proof.
  induction tr as [|ev tr IH]; intros s s' H; simpl; [lia|].
  inversion H as [|? ? s1 ? ? Hstep Hrest]; subst.
  pose proof (IH _ _ Hrest) as K.
  inversion Hstep; subst; simpl; try exact K;
    apply Accepts_Stop in Hrest; destruct Hrest as (_ & _ & _ & _ & F & _);
    rewrite F; simpl; lia.
Qed.

(** Log entries and calls to the checker only come after a failure. *)
Lemma Accepts_quiet tr : forall s s',
  Accepts s tr s' -> (exists due queue, s = Run due queue) ->
  failures tr = [] ->
  Forall (fun ev => isLog ev = false) tr /\ checkCalls tr = [] /\ fixCalls tr = [].
Proof.
  induction tr as [|ev tr IH]; intros s s' H Hs Hf.
  - repeat split. constructor.
  - destruct Hs as (due & queue & ->).
    inversion H as [|? ? s1 ? ? Hstep Hrest]; subst.
    inversion Hstep; subst; simpl in Hf; try discriminate;
      destruct (IH _ _ Hrest ltac:(eauto) Hf) as (L & C & F);
      simpl; repeat split; try assumption; constructor; auto.
Qed.

(** A trace that ends stopped on an answer of the replication function
    holds that replication. *)
Lemma Accepts_stopped_dispatch tr : forall s e,
  Accepts s tr (Stop Dispatch e) ->
  (exists due queue, s = Run due queue) ->
  exists c rq, In (EvReplicate c rq (Some e)) tr.
Proof.
  induction tr as [|ev tr IH]; intros s e H [due [queue ->]].
  - inversion H.
  - inversion H as [|? ? s1 ? ? Hstep Hrest]; subst.
    inversion Hstep; subst;
      try (destruct (IH _ _ Hrest ltac:(eauto)) as (c & rq & Hin);
           exists c, rq; right; exact Hin);
      apply Accepts_Stop in Hrest; destruct Hrest as [[=] _]; subst.
    exists ctx, request. left. reflexivity.
Qed.

End MoreProtocolFacts.

(** * Further facts about the iterator and the resender *)

Section MoreIteratorFacts.
Context {W : Type} (paginationFn : PaginationFn W).

(** Once [HasNext] answers, more fuel does not change what it does. *)
Lemma HasNext_mono fuel : forall iter w x,
  outcome (HasNext paginationFn fuel iter w) = Ret x ->
  forall k, HasNext paginationFn (fuel + k) iter w = HasNext paginationFn fuel iter w.
Proof.
  induction fuel as [|fuel IH]; intros iter w x Ho k.
  - destruct k as [|k]; [reflexivity|]. simpl in *.
    destruct (pageErr iter); [reflexivity|].
    destruct (nextPageItemIndex iter <? List.length (pageItems iter)); [reflexivity|].
    destruct (negb (List.length (pageToken iter) =? 0)); [discriminate | reflexivity].
  - simpl in *.
    destruct (pageErr iter); [reflexivity|].
    destruct (nextPageItemIndex iter <? List.length (pageItems iter)); [reflexivity|].
    destruct (negb (List.length (pageToken iter) =? 0)); [|reflexivity].
    unfold bind in *.
    destruct (getNextPage paginationFn iter w) as [[it1| |] w1 t1]; simpl in *;
      try discriminate.
    rewrite (IH it1 w1 x Ho k). reflexivity.
Qed.

End MoreIteratorFacts.

Section MoreResenderFacts.
Context {W : Type} (defaultPageSize : Z) (n : NDCHistoryResenderImpl W).
Context (domainID workflowID runID : string).
Context (startEventID startEventVersion endEventID endEventVersion : option Z).
Context (ctx : Context).

Local Abbreviation pf :=
  (getPaginationFn defaultPageSize n ctx domainID workflowID runID
     startEventID startEventVersion endEventID endEventVersion).
Local Abbreviation ctx' := (WithTimeout ctx resendContextTimeout).
Local Abbreviation batchRequest := (requestOfBatch domainID workflowID runID).
Local Abbreviation loop := (resendLoop n domainID workflowID runID ctx pf).
Local Abbreviation gate := (fixCurrentExecution n domainID workflowID runID).
Local Abbreviation shape :=
  (callShape defaultPageSize ctx domainID workflowID runID
     startEventID startEventVersion endEventID endEventVersion).
Local Abbreviation fetched :=
  (getNextPage_run defaultPageSize n domainID workflowID runID
     startEventID startEventVersion endEventID endEventVersion ctx).
Local Abbreviation fetchedOk :=
  (getNextPage_accepts defaultPageSize n domainID workflowID runID
     startEventID startEventVersion endEventID endEventVersion ctx).
Local Abbreviation gated := (fixCurrentExecution_run n domainID workflowID runID).
Local Abbreviation stepped :=
  (resendLoop_step defaultPageSize n domainID workflowID runID
     startEventID startEventVersion endEventID endEventVersion ctx).
Local Abbreviation leaves := (fetchLeaves domainID workflowID runID).

Lemma getNextPage_shape iter w : Forall shape (trace (getNextPage pf iter w)).
Proof.
  rewrite fetched.
  destruct (domainCache n domainID w) as [[e|name] w1]; simpl.
  - repeat constructor.
  - destruct (adminClient n _ _ w1) as [[e|response] w2]; simpl;
      repeat constructor; exists name; reflexivity.
Qed.

Lemma getNextPage_leaves iter w :
  exists iter',
    outcome (getNextPage pf iter w) = Ret iter' /\
    leaves (trace (getNextPage pf iter w)) iter'.
Proof.
  rewrite fetched. unfold fetchLeaves.
  destruct (domainCache n domainID w) as [[e|name] w1]; simpl.
  - eexists. split; [reflexivity|]. simpl.
    eexists _, _. repeat split. left. reflexivity.
  - destruct (adminClient n _ _ w1) as [[e|response] w2]; simpl.
    + eexists. split; [reflexivity|]. simpl.
      eexists _, _. repeat split. left. reflexivity.
    + eexists. split; [reflexivity|]. reflexivity.
Qed.

Lemma HasNext_shape fuel : forall iter w,
  Forall shape (trace (HasNext pf fuel iter w)).
Proof.
  induction fuel as [|fuel IH]; intros iter w; simpl;
    destruct (pageErr iter); simpl; try constructor;
    destruct (nextPageItemIndex iter <? List.length (pageItems iter)); simpl;
    try constructor;
    destruct (negb (List.length (pageToken iter) =? 0)); simpl; try constructor.
  unfold bind.
  destruct (fetchedOk iter w) as (it1 & Eo & _). rewrite Eo. simpl.
  apply Forall_app. split; [apply getNextPage_shape | apply IH].
Qed.

Lemma HasNext_leaves fuel : forall iter w,
  pageErr iter = None ->
  match outcome (HasNext pf fuel iter w) with
  | Ret (_, iter') => leaves (trace (HasNext pf fuel iter w)) iter'
  | _ => failures (trace (HasNext pf fuel iter w)) = []
  end.
Proof.
  induction fuel as [|fuel IH]; intros iter w E; simpl; rewrite E;
    (destruct (nextPageItemIndex iter <? List.length (pageItems iter)); simpl;
     [unfold fetchLeaves; now rewrite E|]);
    (destruct (negb (List.length (pageToken iter) =? 0)); simpl;
     [| unfold fetchLeaves; now rewrite E]);
    [reflexivity|].
  unfold bind.
  destruct (getNextPage_leaves iter w) as (it1 & Eo & Hl). rewrite Eo. simpl.
  unfold fetchLeaves in Hl.
  destruct (pageErr it1) as [e|] eqn:E1.
  - assert (Hm : hasMore it1 = true) by (unfold hasMore; now rewrite E1).
    rewrite (HasNext_ready pf fuel it1 _ Hm). simpl. rewrite app_nil_r.
    unfold fetchLeaves. rewrite E1. exact Hl.
  - specialize (IH it1 (final (getNextPage pf iter w)) E1).
    destruct (outcome (HasNext pf fuel it1 (final (getNextPage pf iter w))))
      as [[more it2]| |].
    + unfold fetchLeaves in *. destruct (pageErr it2) as [e|].
      * destruct IH as (ev & post & Ha & Hf & Ht & Hin).
        exists ev, post. rewrite (afterFailure_clean _ _ Hl), failures_app, Hl.
        auto.
      * rewrite failures_app, Hl, IH. reflexivity.
    + rewrite failures_app, Hl, IH. reflexivity.
    + rewrite failures_app, Hl, IH. reflexivity.
Qed.

Lemma fixCurrentExecution_shape w : Forall shape (trace (gate w)).
Proof.
  rewrite gated. destruct (currentExecutionCheck n) as [c|]; [|constructor].
  destruct (Check c _ w) as [[res probe] w1].
  destruct (checks.resultType res); simpl; try (repeat constructor; fail).
  destruct (Fix c probe w1). repeat constructor.
Qed.

(** What the repair gate does with the checker: it calls Check at most once
    and Fix at most once, Fix only after Check found the record corrupted,
    and it says skip only after a Check that found it neither corrupted nor
    failed, without calling Fix. *)
Lemma fixCurrentExecution_calls w :
  List.length (checkCalls (trace (gate w))) <= 1 /\
  List.length (fixCalls (trace (gate w))) <= 1 /\
  (fixCalls (trace (gate w)) <> [] ->
   exists execution res,
     In (EvCheck execution res) (trace (gate w)) /\
     checks.resultType res = checks.CheckResultTypeCorrupted) /\
  (outcome (gate w) = Ret true ->
   exists c execution res,
     currentExecutionCheck n = Some c /\
     In (EvCheck execution res) (trace (gate w)) /\
     checks.resultType res <> checks.CheckResultTypeCorrupted /\
     checks.resultType res <> checks.CheckResultTypeFailed /\
     fixCalls (trace (gate w)) = []).
Proof.
  rewrite gated. destruct (currentExecutionCheck n) as [c|].
  - destruct (Check c _ w) as [[res probe] w1].
    destruct (checks.resultType res) eqn:Er;
      [ | destruct (Fix c probe w1) as [fixed w2] | | ]; simpl;
      (split; [lia|]); (split; [lia|]); split;
      try (intros H; now elim H); try discriminate; intros _.
    + exists (probeOf domainID workflowID), res.
      split; [left; reflexivity | exact Er].
    + exists c, (probeOf domainID workflowID), res. rewrite Er.
      split; [reflexivity|]. split; [left; reflexivity|].
      split; [discriminate|]. split; [discriminate | reflexivity].
    + exists c, (probeOf domainID workflowID), res. rewrite Er.
      split; [reflexivity|]. split; [left; reflexivity|].
      split; [discriminate|]. split; [discriminate | reflexivity].
  - simpl. split; [lia|]. split; [lia|]. split;
      [intros H; now elim H | discriminate].
Qed.


Local Arguments HasNext : simpl never.
Local Arguments Next : simpl never.

Lemma resendLoop_shape fuel : forall iter w,
  Forall shape (trace (loop fuel iter w)).
Proof.
  induction fuel as [fuel IH] using (well_founded_induction lt_wf).
  intros iter w. rewrite stepped. cbv zeta.
  pose proof (HasNext_shape fuel iter w) as Hh.
  destruct (HasNext pf fuel iter w) as [[[more it1]| |] w1 t1]; simpl in Hh |- *;
    try exact Hh.
  destruct more; [|exact Hh].
  destruct (pageErr it1) as [e|]; simpl.
  { apply Forall_app. split; [exact Hh | repeat constructor]. }
  destruct (nth_error (pageItems it1) (nextPageItemIndex it1)) as [item|]; simpl;
    [|exact Hh].
  destruct (historyReplicationFn n ctx' (batchRequest item) w1)
    as [[[m| |msg]|] w2]; simpl;
    [ | | | destruct fuel as [|fuel']; simpl ];
    apply Forall_app; (split; [exact Hh|]); repeat constructor.
  - apply fixCurrentExecution_shape.
  - apply IH. apply Nat.lt_succ_diag_r.
Qed.

(** After a failure that is not routed through the repair gate, the loop
    writes its log entry and nothing else. *)
Lemma resendLoop_tail fuel : forall iter w ev post,
  pageErr iter = None ->
  afterFailure (trace (loop fuel iter w)) = Some (ev, post) ->
  failsFast ev <> None ->
  post = logTail domainID workflowID runID ev.
Proof.
  induction fuel as [fuel IH] using (well_founded_induction lt_wf).
  intros iter w ev post E. rewrite stepped. cbv zeta.
  pose proof (HasNext_leaves fuel iter w E) as Hh.
  pose proof (HasNext_answer pf fuel iter w) as Hans.
  destruct (HasNext pf fuel iter w) as [[[more it1]| |] w1 t1]; simpl in Hh |- *;
    try (rewrite (afterFailure_None _ Hh); discriminate).
  specialize (Hans _ _ eq_refl). unfold hasMore in Hans.
  unfold fetchLeaves in Hh.
  destruct (pageErr it1) as [e|] eqn:E1.
  - destruct Hh as (ev0 & post0 & Ha & Hf & Ht & _). subst more.
    simpl. rewrite (afterFailure_found _ _ _ _ Ha). intros [= <- <-] _.
    symmetry. exact Ht.
  - destruct more; simpl; [| rewrite (afterFailure_None _ Hh); discriminate].
    destruct (nth_error (pageItems it1) (nextPageItemIndex it1)) as [item|]; simpl;
      [| rewrite (afterFailure_None _ Hh); discriminate].
    destruct (historyReplicationFn n ctx' (batchRequest item) w1)
      as [[[m| |msg]|] w2]; simpl;
      [ | | | destruct fuel as [|fuel']; simpl ];
      rewrite (afterFailure_clean _ _ Hh); simpl.
    + intros [= <- <-] Hne. now elim Hne.
    + intros [= <- <-] _. reflexivity.
    + intros [= <- <-] _. reflexivity.
    + discriminate.
    + apply IH; [apply Nat.lt_succ_diag_r | reflexivity].
Qed.

(** The loop on an iterator that holds an error: the error is logged with
    the identity of the execution and returned. *)
Lemma resendLoop_err fuel iter w e :
  pageErr iter = Some e ->
  loop fuel iter w =
  mkResult (Ret (Some e)) w
    [EvLogError "failed to get history events"
       (identityTags domainID workflowID runID ++ [tag.Error e])].
Proof.
  intros E. rewrite stepped. cbv zeta.
  assert (Hm : hasMore iter = true) by (unfold hasMore; now rewrite E).
  rewrite (HasNext_ready pf fuel iter w Hm). simpl. rewrite E. reflexivity.
Qed.

(** Either the loop never consults the checker and returns an error a
    collaborator answered with, or its trace ends with a not-found answer of
    the replication function followed by the run of the repair gate. *)
Lemma resendLoop_gate fuel : forall iter w,
  pageErr iter = None ->
  (checkCalls (trace (loop fuel iter w)) = [] /\
   fixCalls (trace (loop fuel iter w)) = [] /\
   forall e', outcome (loop fuel iter w) = Ret (Some e') ->
              In e' (failures (trace (loop fuel iter w)))) \/
  (exists pre c rq m w1 skip,
     trace (loop fuel iter w) =
       pre ++ EvReplicate c rq (Some (EntityNotExistsError m)) :: trace (gate w1) /\
     checkCalls pre = [] /\ fixCalls pre = [] /\
     outcome (gate w1) = Ret skip /\
     outcome (loop fuel iter w) =
       Ret (Some (if skip then ErrSkipTask else EntityNotExistsError m))).
Proof.
  induction fuel as [fuel IH] using (well_founded_induction lt_wf).
  intros iter w E. rewrite stepped. cbv zeta.
  pose proof (HasNext_leaves fuel iter w E) as Hh.
  pose proof (HasNext_answer pf fuel iter w) as Hans.
  destruct (HasNext_quiet defaultPageSize n domainID workflowID runID
              startEventID startEventVersion endEventID endEventVersion ctx
              fuel iter w) as (_ & Hc & Hx).
  destruct (HasNext pf fuel iter w) as [[[more it1]| |] w1 t1];
    simpl in Hh, Hc, Hx |- *;
    try (left; split; [exact Hc|]; split; [exact Hx|]; discriminate).
  specialize (Hans _ _ eq_refl). unfold hasMore in Hans. unfold fetchLeaves in Hh.
  destruct (pageErr it1) as [e|] eqn:E1.
  { subst more. simpl. left.
    rewrite checkCalls_app, fixCalls_app, failures_app, Hc, Hx.
    split; [reflexivity|]. split; [reflexivity|].
    intros e' [= <-]. destruct Hh as (_ & _ & _ & _ & _ & Hin).
    apply in_or_app. left. exact Hin. }
  destruct more; simpl;
    [| left; split; [exact Hc|]; split; [exact Hx|]; discriminate].
  destruct (nth_error (pageItems it1) (nextPageItemIndex it1)) as [item|]; simpl;
    [| left; split; [exact Hc|]; split; [exact Hx|]; discriminate].
  destruct (historyReplicationFn n ctx' (batchRequest item) w1)
    as [[[m| |msg]|] w2]; simpl.
  - right.
    destruct (fixCurrentExecution_accepts n domainID workflowID runID m w2)
      as (skip & Eo & _).
    exists t1, ctx', (batchRequest item), m, w2, skip. rewrite Eo.
    repeat split; assumption.
  - left. rewrite checkCalls_app, fixCalls_app, failures_app, Hc, Hx. simpl.
    split; [reflexivity|]. split; [reflexivity|].
    intros e' [= <-]. apply in_or_app. right. left. reflexivity.
  - left. rewrite checkCalls_app, fixCalls_app, failures_app, Hc, Hx. simpl.
    split; [reflexivity|]. split; [reflexivity|].
    intros e' [= <-]. apply in_or_app. right. left. reflexivity.
  - destruct fuel as [|fuel']; simpl.
    + left. rewrite checkCalls_app, fixCalls_app, Hc, Hx. simpl.
      split; [reflexivity|]. split; [reflexivity|]. discriminate.
    + destruct (IH fuel' (Nat.lt_succ_diag_r fuel') (advance it1) w2 eq_refl)
        as [(C & X & K) | (pre & c & rq & m & w3 & skip & Ht & C & X & Eo & Ho)].
      * left. rewrite checkCalls_app, fixCalls_app, failures_app, Hc, Hx. simpl.
        split; [exact C|]. split; [exact X|].
        intros e' He. apply in_or_app. right. exact (K e' He).
      * right.
        exists (t1 ++ EvReplicate ctx' (batchRequest item) None :: pre),
               c, rq, m, w3, skip.
        rewrite Ht, Ho, <- app_assoc, checkCalls_app, fixCalls_app, Hc, Hx.
        simpl. repeat split; assumption.
Qed.

(** Once the loop returns, more fuel does not change what it does. *)
Lemma resendLoop_mono fuel : forall iter w r,
  outcome (loop fuel iter w) = Ret r ->
  forall k, loop (fuel + k) iter w = loop fuel iter w.
Proof.
  induction fuel as [fuel IH] using (well_founded_induction lt_wf).
  intros iter w r Ho k. rewrite (stepped (fuel + k)), (stepped fuel). cbv zeta.
  rewrite stepped in Ho. cbv zeta in Ho.
  assert (Hm : HasNext pf (fuel + k) iter w = HasNext pf fuel iter w).
  { destruct (outcome (HasNext pf fuel iter w)) as [x| |] eqn:Eh;
      try discriminate.
    eapply HasNext_mono. exact Eh. }
  rewrite Hm.
  destruct (HasNext pf fuel iter w) as [[[more it1]| |] w1 t1]; simpl in Ho |- *;
    try reflexivity.
  destruct more; [|reflexivity].
  destruct (pageErr it1); [reflexivity|].
  destruct (nth_error (pageItems it1) (nextPageItemIndex it1)) as [item|];
    [|reflexivity].
  destruct (historyReplicationFn n ctx' (batchRequest item) w1)
    as [[[m| |msg]|] w2]; try reflexivity.
  destruct fuel as [|fuel']; simpl in Ho |- *; [discriminate|].
  rewrite (IH fuel' (Nat.lt_succ_diag_r fuel') _ _ _ Ho k). reflexivity.
Qed.

End MoreResenderFacts.

(** * Further properties of the resender *)

Section FurtherProperties.
Context {W : Type} (defaultPageSize : Z) (n : NDCHistoryResenderImpl W).
Context (domainID workflowID runID : string).
Context (startEventID startEventVersion endEventID endEventVersion : option Z).

Local Abbreviation send :=
  (fun fuel => SendSingleWorkflowHistory defaultPageSize n fuel domainID workflowID runID
     startEventID startEventVersion endEventID endEventVersion).
Local Abbreviation pf :=
  (getPaginationFn defaultPageSize n (callContext n domainID) domainID workflowID runID
     startEventID startEventVersion endEventID endEventVersion).
Local Abbreviation loop :=
  (resendLoop n domainID workflowID runID (callContext n domainID) pf).
Local Abbreviation gate := (fixCurrentExecution n domainID workflowID runID).
Local Abbreviation request :=
  (fetchRequest defaultPageSize workflowID runID
     startEventID startEventVersion endEventID endEventVersion).
Local Abbreviation shape :=
  (callShape defaultPageSize (callContext n domainID) domainID workflowID runID
     startEventID startEventVersion endEventID endEventVersion).
Local Abbreviation accepted :=
  (SendSingleWorkflowHistory_accepts defaultPageSize n domainID workflowID runID
     startEventID startEventVersion endEventID endEventVersion).
Local Abbreviation unfolded :=
  (SendSingleWorkflowHistory_run defaultPageSize n domainID workflowID runID
     startEventID startEventVersion endEventID endEventVersion).
Local Abbreviation initial :=
  {| pageToken := []; pageErr := None; pageItems := []; nextPageItemIndex := 0 |}.

(** A call is the fetch of the first page followed by the loop; the fetch
    leaves either no failure or the failed call and the log entry of
    [getHistory]. *)
Lemma SendSingleWorkflowHistory_parts fuel w :
  exists it0 w0 t0,
    send fuel w =
      mkResult (outcome (loop fuel it0 w0)) (final (loop fuel it0 w0))
               (t0 ++ trace (loop fuel it0 w0)) /\
    Forall shape t0 /\
    fetchLeaves domainID workflowID runID t0 it0 /\
    checkCalls t0 = [] /\ fixCalls t0 = [].
Proof.
  destruct (unfolded fuel w) as (it0 & w0 & t0 & En & _ & _ & C & F & _ & Es).
  exists it0, w0, t0. split; [exact Es|].
  unfold NewPagingIterator in En.
  pose proof (getNextPage_shape defaultPageSize n domainID workflowID runID
                startEventID startEventVersion endEventID endEventVersion
                (callContext n domainID) initial w) as Hs.
  destruct (getNextPage_leaves defaultPageSize n domainID workflowID runID
              startEventID startEventVersion endEventID endEventVersion
              (callContext n domainID) initial w) as (it0' & Eo & Hl).
  rewrite En in Hs, Eo, Hl. simpl in Hs, Eo, Hl. injection Eo as <-.
  repeat split; assumption.
Qed.

Lemma SendSingleWorkflowHistory_shape fuel w : Forall shape (trace (send fuel w)).
Proof.
  destruct (SendSingleWorkflowHistory_parts fuel w)
    as (it0 & w0 & t0 & -> & Hs & _). simpl.
  apply Forall_app. split; [exact Hs|].
  apply resendLoop_shape.
Qed.

(** X1: every round trip to the remote cluster and every replication of a
    call runs under the fixed timeout of thirty seconds, layered on the
    overall deadline of the call when the per-domain duration is configured
    and positive, and on the background context otherwise. *)
Theorem deadlines_layered fuel w c :
  (exists rq res, In (EvGetRawHistory c rq res) (trace (send fuel w))) \/
  (exists rq res, In (EvReplicate c rq res) (trace (send fuel w))) ->
  match rereplicationTimeout n with
  | None => c = WithTimeout Background (30 * Second)
  | Some duration =>
      if (0 <? duration domainID)%Z
      then c = WithTimeout (WithTimeout Background (duration domainID)) (30 * Second)
      else c = WithTimeout Background (30 * Second)
  end.
Proof.
  intros H.
  assert (Hc : c = WithTimeout (callContext n domainID) resendContextTimeout).
  { pose proof (SendSingleWorkflowHistory_shape fuel w) as Hs.
    rewrite Forall_forall in Hs.
    destruct H as [(rq & res & Hin) | (rq & res & Hin)];
      specialize (Hs _ Hin); simpl in Hs; tauto. }
  subst c. unfold callContext, resendContextTimeout.
  destruct (rereplicationTimeout n) as [duration|]; [|reflexivity].
  destruct (0 <? duration domainID)%Z; reflexivity.
Qed.

(** X2: the domain is resolved anew for every round trip: a round trip
    comes right after a successful lookup of the domain ID of the call, and
    its request carries the name that lookup answered, the workflow ID and
    run ID of the call, the four bounds of the range as they were given, and
    the default page size. *)
Theorem round_trip_request fuel w pre c rq res post :
  trace (send fuel w) = pre ++ EvGetRawHistory c rq res :: post ->
  exists pre' name,
    pre = pre' ++ [EvGetDomainByID domainID (inr name)] /\
    rq = {| admin.Domain := Some name;
            admin.Execution := Some {| shared.WorkflowId := Some workflowID;
                                       shared.RunId := Some runID |};
            admin.StartEventId := startEventID;
            admin.StartEventVersion := startEventVersion;
            admin.EndEventId := endEventID;
            admin.EndEventVersion := endEventVersion;
            admin.MaximumPageSize := Some defaultPageSize;
            admin.NextPageToken := admin.NextPageToken rq |}.
Proof.
  intros Htr.
  pose proof (SendSingleWorkflowHistory_shape fuel w) as Hs.
  cbv beta in Hs, Htr.
  rewrite Htr in Hs. apply Forall_elt in Hs. simpl in Hs.
  destruct Hs as [_ [name' Hrq]].
  destruct (accepted fuel w) as (s' & Ha & _). rewrite Htr in Ha.
  apply Accepts_app_inv in Ha. destruct Ha as (s1 & Hpre & Hpost).
  inversion Hpost as [|? ? s2 ? ? Hstep _]; subst.
  assert (Hname : exists token name, s1 = Run (Rpc token name) [] /\
                                     admin.Domain rq = Some name).
  { inversion Hstep; subst; eauto. }
  destruct Hname as (token & name & -> & Hd).
  destruct (Accepts_owes_rpc _ _ _ _ _ _ _ _ Hpre I) as [[_ Hinit] | [pre' ->]];
    [discriminate|].
  exists pre', name. split; [reflexivity|].
  rewrite Hrq in Hd. simpl in Hd. injection Hd as ->. exact Hrq.
Qed.

(** X3: what is logged when a call fails fast.  After a failed domain
    lookup or round trip, [getHistory] logs the error with the run ID and the
    call logs it with the domain ID, workflow ID and run ID; after an answer
    of the replication function other than not-found, the call logs it with
    the same identity; and nothing else follows. *)
Theorem failure_log_tail fuel w pre ev post e :
  trace (send fuel w) = pre ++ ev :: post ->
  failsFast ev = Some e ->
  post = logTail domainID workflowID runID ev.
Proof.
  intros Htr Hev.
  destruct (stops_after defaultPageSize n domainID workflowID runID
              startEventID startEventVersion endEventID endEventVersion
              fuel w pre ev post e Htr Hev) as (_ & _ & Hpre & _).
  pose proof (afterFailure_split pre post ev e Hpre (failsFast_failureOf _ _ Hev)) as Ha.
  rewrite <- Htr in Ha. clear Htr.
  destruct (SendSingleWorkflowHistory_parts fuel w)
    as (it0 & w0 & t0 & Es & _ & Hl & _).
  rewrite Es in Ha. simpl in Ha. unfold fetchLeaves in Hl.
  destruct (pageErr it0) as [e0|] eqn:E0.
  - destruct Hl as (ev0 & post0 & Ha0 & _ & Ht & _).
    rewrite (resendLoop_err defaultPageSize n domainID workflowID runID
               startEventID startEventVersion endEventID endEventVersion
               (callContext n domainID) fuel it0 w0 e0 E0) in Ha.
    simpl in Ha. rewrite (afterFailure_found _ _ _ _ Ha0) in Ha.
    injection Ha as <- <-. symmetry. exact Ht.
  - rewrite (afterFailure_clean _ _ Hl) in Ha.
    eapply resendLoop_tail; [exact E0 | exact Ha | congruence].
Qed.

(** X4: a call that returns nil met no failure, and a call whose
    collaborators never failed wrote no log entry and never consulted the
    invariant checker. *)
Theorem quiet_without_failure fuel w :
  (outcome (send fuel w) = Ret None -> failures (trace (send fuel w)) = []) /\
  (failures (trace (send fuel w)) = [] ->
   Forall (fun ev => isLog ev = false) (trace (send fuel w)) /\
   checkCalls (trace (send fuel w)) = [] /\
   fixCalls (trace (send fuel w)) = []).
Proof.
  destruct (accepted fuel w) as (s' & Ha & Hf). split.
  - intros Ho. rewrite Ho in Hf. simpl in Hf. subst s'.
    destruct (Accepts_Run _ _ _ _ _ _ Ha _ _ eq_refl) as (rest & _ & K).
    destruct (K _ _ eq_refl) as (_ & F & _). exact F.
  - intros F. eapply Accepts_quiet; [exact Ha | eauto | exact F].
Qed.


(** X6: the skip sentinel comes from the repair gate only.  When a call
    returns [ErrSkipTask] and no collaborator answered with that very value,
    an invariant checker is configured, its check found the record neither
    corrupted nor failed, and no repair was made. *)
Theorem skip_needs_a_passing_check fuel w :
  outcome (send fuel w) = Ret (Some ErrSkipTask) ->
  ~ In ErrSkipTask (failures (trace (send fuel w))) ->
  exists c execution res,
    currentExecutionCheck n = Some c /\
    In (EvCheck execution res) (trace (send fuel w)) /\
    checks.resultType res <> checks.CheckResultTypeCorrupted /\
    checks.resultType res <> checks.CheckResultTypeFailed /\
    fixCalls (trace (send fuel w)) = [].
Proof.
  destruct (SendSingleWorkflowHistory_parts fuel w)
    as (it0 & w0 & t0 & -> & _ & Hl & _ & F0). simpl.
  rewrite failures_app, fixCalls_app, F0. simpl. intros Ho Hno.
  unfold fetchLeaves in Hl.
  destruct (pageErr it0) as [e0|] eqn:E0.
  - rewrite (resendLoop_err defaultPageSize n domainID workflowID runID
               startEventID startEventVersion endEventID endEventVersion
               (callContext n domainID) fuel it0 w0 e0 E0) in Ho.
    simpl in Ho. injection Ho as ->.
    destruct Hl as (_ & _ & _ & _ & _ & Hin).
    exfalso. apply Hno. apply in_or_app. left. exact Hin.
  - destruct (resendLoop_gate defaultPageSize n domainID workflowID runID
                startEventID startEventVersion endEventID endEventVersion
                (callContext n domainID) fuel it0 w0 E0)
      as [(_ & _ & K) | (pre & c & rq & m & w1 & skip & Ht & _ & X & Eo & Ho')].
    + exfalso. apply Hno. apply in_or_app. right. exact (K _ Ho).
    + rewrite Ho' in Ho. destruct skip; [|discriminate].
      destruct (fixCurrentExecution_calls n domainID workflowID runID w1)
        as (_ & _ & _ & Hskip).
      destruct (Hskip Eo) as (ck & execution & res & Hck & Hin & Hr1 & Hr2 & Hx).
      exists ck, execution, res. rewrite Ht, fixCalls_app, X. simpl.
      repeat split; try assumption.
      apply in_or_app. right. apply in_or_app. right. right. exact Hin.
Qed.

(** X7: a call stops at the first error of a collaborator: the domain
    cache, the remote cluster and the replication function together answer
    with an error at most once in a call. *)
Theorem at_most_one_failure fuel w :
  List.length (failures (trace (send fuel w))) <= 1.
Proof.
  destruct (accepted fuel w) as (s' & Ha & _).
  eapply Accepts_one_failure. exact Ha.
Qed.

(** The fuel is only a bound on the steps of the embedding: once a call
    returns, with any larger amount of fuel it returns the same value, leaves
    the same world and makes the same calls in the same order. *)
Lemma SendSingleWorkflowHistory_mono fuel w r :
  outcome (send fuel w) = Ret r ->
  forall k, send (fuel + k) w = send fuel w.
Proof.
  intros Ho k.
  destruct (unfolded fuel w) as (it0 & w0 & t0 & En & _ & _ & _ & _ & _ & Es).
  destruct (unfolded (fuel + k) w)
    as (it1 & w1 & t1 & En' & _ & _ & _ & _ & _ & Es').
  rewrite En in En'. injection En' as <- <- <-.
  cbv beta in Ho |- *.
  rewrite Es in Ho. simpl in Ho.
  rewrite Es', Es.
  rewrite (resendLoop_mono defaultPageSize n domainID workflowID runID
             startEventID startEventVersion endEventID endEventVersion
             (callContext n domainID) fuel it0 w0 r Ho k).
  reflexivity.
Qed.


(** C3 (amended): an error of the fetch path, [EntityNotExistsError]
    included, is not routed through the repair gate.  Whatever checker is
    configured, the call logs it, [getHistory] with the run ID and
    [SendSingleWorkflowHistory] with the domain ID, workflow ID and run ID,
    and returns it as it is, and neither Check nor Fix is called.  Only a
    not-found answer of the replication function is routed through the gate:
    every call to Check or to Fix comes after such an answer. *)
Theorem fetch_error_bypasses_gate fuel w :
  (forall pre ev post e,
     trace (send fuel w) = pre ++ ev :: post ->
     isFetch ev = true -> failureOf ev = Some e ->
     outcome (send fuel w) = Ret (Some e) /\
     post = logTail domainID workflowID runID ev /\
     checkCalls (trace (send fuel w)) = [] /\
     fixCalls (trace (send fuel w)) = []) /\
  (forall gev,
     In gev (trace (send fuel w)) -> isGateCall gev = true ->
     exists pre c rq m post,
       trace (send fuel w) =
         pre ++ EvReplicate c rq (Some (EntityNotExistsError m)) :: post /\
       In gev post).
Proof.
  split.
  - intros pre ev post e Htr Hfetch Hfail.
    assert (Hfast : failsFast ev = Some e).
    { destruct ev as [? [|]|? ? [|]| | | |]; simpl in *; congruence. }
    destruct (stops_after defaultPageSize n domainID workflowID runID
                startEventID startEventVersion endEventID endEventVersion
                fuel w pre ev post e Htr Hfast) as (Ho & _ & Hpre & Hc & Hx).
    split; [exact Ho|]. split; [|split; assumption].
    pose proof (afterFailure_split pre post ev e Hpre Hfail) as Ha.
    rewrite <- Htr in Ha.
    destruct (SendSingleWorkflowHistory_parts fuel w)
      as (it0 & w0 & t0 & Es & _ & Hl & _).
    rewrite Es in Ha. simpl in Ha. unfold fetchLeaves in Hl.
    destruct (pageErr it0) as [e0|] eqn:E0.
    + destruct Hl as (ev0 & post0 & Ha0 & _ & Ht & _).
      rewrite (resendLoop_err defaultPageSize n domainID workflowID runID
                 startEventID startEventVersion endEventID endEventVersion
                 (callContext n domainID) fuel it0 w0 e0 E0) in Ha.
      simpl in Ha. rewrite (afterFailure_found _ _ _ _ Ha0) in Ha.
      injection Ha as <- <-. symmetry. exact Ht.
    + rewrite (afterFailure_clean _ _ Hl) in Ha.
      eapply resendLoop_tail; [exact E0 | exact Ha | congruence].
  - destruct (SendSingleWorkflowHistory_parts fuel w)
      as (it0 & w0 & t0 & -> & _ & _ & C0 & F0). simpl.
    intros gev Hin Hg. apply in_app_or in Hin. destruct Hin as [Hin | Hin].
    { exfalso. exact (gateCall_counted _ _ Hin Hg C0 F0). }
    destruct (pageErr it0) as [e0|] eqn:E0.
    + rewrite (resendLoop_err defaultPageSize n domainID workflowID runID
                 startEventID startEventVersion endEventID endEventVersion
                 (callContext n domainID) fuel it0 w0 e0 E0) in Hin.
      simpl in Hin. destruct Hin as [<- | []]. discriminate.
    + destruct (resendLoop_gate defaultPageSize n domainID workflowID runID
                  startEventID startEventVersion endEventID endEventVersion
                  (callContext n domainID) fuel it0 w0 E0)
        as [(C & X & _) | (pre & c & rq & m & w1 & skip & Ht & C & X & _ & _)].
      * exfalso. exact (gateCall_counted _ _ Hin Hg C X).
      * rewrite Ht in Hin |- *. apply in_app_or in Hin.
        destruct Hin as [Hin | [<- | Hin]].
        -- exfalso. exact (gateCall_counted _ _ Hin Hg C X).
        -- discriminate.
        -- exists (t0 ++ pre), c, rq, m, (trace (gate w1)).
           split; [now rewrite <- app_assoc | exact Hin].
Qed.

End FurtherProperties.

(** * The further properties at work on concrete calls *)

Lemma deadlines_layered_witness :
  let n := withDeadline (5 * Second) (resender twoPages applyAll None) in
  let c := WithTimeout (WithTimeout Background (5 * Second)) (30 * Second) in
  (exists rq res, In (EvReplicate c rq res) (trace (send n 10))) /\
  c = WithTimeout (WithTimeout Background (5 * Second)) (30 * Second).
Proof.
  intros n c.
  assert (H : exists rq res, In (EvReplicate c rq res) (trace (send n 10))).
  { exists (createReplicationRawRequest "D1" "W1" "R1" (blob "b1")
              (shared.GetItems (lineage 1))), None.
    vm_compute. do 2 right. left. reflexivity. }
  split; [exact H|].
  exact (deadlines_layered 100%Z n "D1" "W1" "R1" None None None None 10 0 c
           (or_intror H)).
Defined.

Lemma round_trip_request_witness :
  let r := send (resender twoPages applyAll None) 10 in
  exists pre' name,
    firstn 5 (trace r) ++ [EvGetDomainByID "D1" (inr "domain-name")] =
    pre' ++ [EvGetDomainByID "D1" (inr name)] /\
    fetchRequest 100%Z "W1" "R1" None None None None "domain-name" tokenT =
    fetchRequest 100%Z "W1" "R1" None None None None name tokenT.
Proof.
  intros r.
  apply (round_trip_request 100%Z (resender twoPages applyAll None)
           "D1" "W1" "R1" None None None None 10 0
           (firstn 5 (trace r) ++ [EvGetDomainByID "D1" (inr "domain-name")])
           (WithTimeout Background resendContextTimeout)
           (fetchRequest 100%Z "W1" "R1" None None None None "domain-name" tokenT)
           (inr page2) (skipn 7 (trace r))).
  vm_compute. reflexivity.
Defined.

Lemma failure_log_tail_witness :
  let r := send (resender (remoteFails timedOut) applyAll None) 10 in
  skipn 2 (trace r) =
  [EvLogError "error getting history" [tag.WorkflowRunID "R1"; tag.Error timedOut];
   EvLogError "failed to get history events"
     [tag.WorkflowDomainID "D1"; tag.WorkflowID "W1"; tag.WorkflowRunID "R1";
      tag.Error timedOut]].
Proof.
  intros r.
  apply (failure_log_tail 100%Z (resender (remoteFails timedOut) applyAll None)
           "D1" "W1" "R1" None None None None 10 0
           (firstn 1 (trace r))
           (EvGetRawHistory (WithTimeout Background resendContextTimeout)
              (fetchRequest 100%Z "W1" "R1" None None None None "domain-name" [])
              (inl timedOut))
           (skipn 2 (trace r)) timedOut);
    vm_compute; reflexivity.
Defined.

Lemma quiet_without_failure_witness :
  let r := send (resender twoPages applyAll None) 10 in
  failures (trace r) = [] /\
  (Forall (fun ev => isLog ev = false) (trace r) /\
   checkCalls (trace r) = [] /\ fixCalls (trace r) = []).
Proof.
  intros r.
  pose proof (quiet_without_failure 100%Z (resender twoPages applyAll None)
                "D1" "W1" "R1" None None None None 10 0) as [H1 H2].
  assert (F : failures (trace r) = []) by (apply H1; vm_compute; reflexivity).
  split; [exact F | exact (H2 F)].
Defined.


Lemma skip_needs_a_passing_check_witness :
  let n := resender twoPages (failOn "b2" notFound)
             (Some (checker checks.CheckResultTypeHealthy)) in
  exists c execution res,
    currentExecutionCheck n = Some c /\
    In (EvCheck execution res) (trace (send n 10)) /\
    checks.resultType res <> checks.CheckResultTypeCorrupted /\
    checks.resultType res <> checks.CheckResultTypeFailed /\
    fixCalls (trace (send n 10)) = [].
Proof.
  intros n.
  apply (skip_needs_a_passing_check 100%Z n "D1" "W1" "R1" None None None None 10 0).
  - vm_compute. reflexivity.
  - vm_compute. intuition discriminate.
Defined.


Lemma fetch_error_bypasses_gate_witness :
  let n := resender (remoteFails notFound) applyAll
             (Some (checker checks.CheckResultTypeHealthy)) in
  outcome (send n 10) = Ret (Some notFound) /\
  skipn 2 (trace (send n 10)) =
    [EvLogError "error getting history" [tag.WorkflowRunID "R1"; tag.Error notFound];
     EvLogError "failed to get history events"
       [tag.WorkflowDomainID "D1"; tag.WorkflowID "W1"; tag.WorkflowRunID "R1";
        tag.Error notFound]] /\
  checkCalls (trace (send n 10)) = [] /\
  fixCalls (trace (send n 10)) = [].
Proof.
  intros n.
  apply (proj1 (fetch_error_bypasses_gate 100%Z n "D1" "W1" "R1" None None None None 10 0)
           (firstn 1 (trace (send n 10)))
           (EvGetRawHistory (WithTimeout Background resendContextTimeout)
              (fetchRequest 100%Z "W1" "R1" None None None None "domain-name" [])
              (inl notFound))
           (skipn 2 (trace (send n 10))) notFound);
    vm_compute; reflexivity.
Defined.
